(** * ThreeJSScene: the scene lifecycle controller of [src/main.ts]

    A shallow embedding of the [ThreeJSScene] class: its constructor with the
    set-up methods, the resize handler, the animation step and [dispose],
    run against an explicit model of the browser (window, page, animation
    frame scheduler) and of the three.js objects the class owns.

    JavaScript numbers are IEEE-754 binary64 values; they are modelled by
    [spec_float] with the operations of [SpecFloat] at precision 53. *)

From Stdlib Require Import ZArith Lia List String Floats.SpecFloat Reals Lra.
From stdpp Require Import base option list strings gmap.
Import ListNotations.

(** ** JavaScript numbers *)

Module Num.

Definition number : Type := spec_float.

Definition prec : Z := 53.
Definition emax : Z := 1024.

Definition add : number -> number -> number := SFadd prec emax.
Definition mul : number -> number -> number := SFmul prec emax.
Definition div : number -> number -> number := SFdiv prec emax.
Definition neg : number -> number := SFopp.

(** An integer literal; exact below 2^53. *)
Definition int (n : Z) : number := binary_normalize prec emax n 0 false.

(** A decimal literal [n / d]: the literal denotes the binary64 value
    nearest to the decimal, which is what the correctly rounded quotient
    of the two integers is. *)
Definition dec (n d : Z) : number := div (int n) (int d).

(** [Math.PI]: 0x400921FB54442D18. *)
Definition Math_PI : number := S754_finite false 0x1921FB54442D18 (-51).

(** The exact value of a finite number as a fraction [num / den]. *)
Definition exact (v : number) : option (Z * Z) :=
  match v with
  | S754_zero _ => Some (0, 1)%Z
  | S754_finite s m e =>
      let sm := if s then Z.neg m else Z.pos m in
      Some (if (0 <=? e)%Z then (sm * 2 ^ e, 1)%Z else (sm, 2 ^ (- e))%Z)
  | _ => None
  end.

End Num.

Import Num.

Arguments add : simpl never.
Arguments mul : simpl never.
Arguments div : simpl never.
Arguments neg : simpl never.
Arguments int : simpl never.
Arguments dec : simpl never.

(** ** three.js values *)

Record Vector3 : Type := mkVector3 { x : number; y : number; z : number }.

Record Vector2 : Type := mkVector2 { width : number; height : number }.

(** Euler angles, in radians. *)
Record Euler : Type := mkEuler { rx : number; ry : number; rz : number }.

Definition origin : Vector3 := mkVector3 (int 0) (int 0) (int 0).
Definition unrotated : Euler := mkEuler (int 0) (int 0) (int 0).

Inductive Geometry : Type :=
| BoxGeometry (w h d : number)
| PlaneGeometry (w h : number).

Record MeshLambertMaterial : Type := { color : Z }.

Record Mesh : Type := mkMesh {
  geometry : Geometry;
  material : MeshLambertMaterial;
  position : Vector3;
  rotation : Euler;
  castShadow : bool;
  receiveShadow : bool
}.

Record DirectionalLight : Type := mkDirectionalLight {
  dl_color : Z;
  dl_intensity : number;
  dl_position : Vector3;
  dl_castShadow : bool;
  dl_mapSize : Vector2
}.

Record AmbientLight : Type := mkAmbientLight {
  al_color : Z;
  al_intensity : number
}.

(** What a scene holds. *)
Inductive Object3D : Type :=
| ObjAmbient (l : AmbientLight)
| ObjDirectional (l : DirectionalLight)
| ObjMesh (m : Mesh).

(** [new Mesh(geometry, material)]: at the origin, not rotated, no shadows. *)
Definition new_Mesh (g : Geometry) (m : MeshLambertMaterial) : Mesh :=
  mkMesh g m origin unrotated false false.

(** [new DirectionalLight(color, intensity)]: placed at the default up
    vector, no shadow, a 512 x 512 shadow map. *)
Definition new_DirectionalLight (c : Z) (i : number) : DirectionalLight :=
  mkDirectionalLight c i (mkVector3 (int 0) (int 1) (int 0)) false
    (mkVector2 (int 512) (int 512)).

(** The parameters a projection matrix was computed from. *)
Record Projection : Type := mkProjection {
  p_fov : number; p_aspect : number; p_near : number; p_far : number
}.

Record PerspectiveCamera : Type := mkCamera {
  fov : number;
  aspect : number;
  near : number;
  far : number;
  cam_position : Vector3;
  projection : Projection
}.

Definition updateProjectionMatrix (c : PerspectiveCamera) : PerspectiveCamera :=
  mkCamera (fov c) (aspect c) (near c) (far c) (cam_position c)
    (mkProjection (fov c) (aspect c) (near c) (far c)).

(** [new PerspectiveCamera(fov, aspect, near, far)] commits its projection. *)
Definition new_PerspectiveCamera (f a n r : number) : PerspectiveCamera :=
  updateProjectionMatrix (mkCamera f a n r origin (mkProjection f a n r)).

Inductive ShadowMapType : Type := PCFShadowMap | PCFSoftShadowMap.

Record WebGLRenderer : Type := mkRenderer {
  antialias : bool;
  r_size : Vector2;
  pixelRatio : number;
  shadowMap_enabled : bool;
  shadowMap_type : ShadowMapType;
  clearColor : Z;
  clearAlpha : number;
  context_released : bool
}.

(** [new WebGLRenderer({ antialias })]: the size of a fresh canvas, pixel
    ratio 1. *)
Definition new_WebGLRenderer (aa : bool) : WebGLRenderer :=
  mkRenderer aa (mkVector2 (int 300) (int 150)) (int 1) false PCFShadowMap 0
    (int 1) false.

(** Modelled from the spec: the size of the rendering surface's output is
    not computed in [src/]; the spec gives it as the size set on the surface
    scaled by its pixel ratio. *)
Definition outputSize (r : WebGLRenderer) : Vector2 :=
  mkVector2 (mul (width (r_size r)) (pixelRatio r))
            (mul (height (r_size r)) (pixelRatio r)).

(** The settings of the controls that [main.ts] assigns, and whether their
    listeners are bound. What the add-on keeps to itself (target, damped
    motion, pending input) is not part of the record: the effect of an
    update on the camera is given by the add-on, see [OrbitLibrary]. *)
Record OrbitControls : Type := mkControls {
  enableDamping : bool;
  dampingFactor : number;
  minDistance : number;
  maxDistance : number;
  listening : bool
}.

(** [new OrbitControls(camera, domElement)]: no damping, factor 0.05, any
    distance from 0 to infinity, listeners bound. *)
Definition new_OrbitControls : OrbitControls :=
  mkControls false (dec 5 100) (int 0) (S754_infinity false) true.

(** The settings of the overlay that [main.ts] assigns; the timing samples
    that [begin()] and [end()] record are the add-on's own. *)
Record Stats : Type := mkStats {
  panel : Z;
  classList : list string
}.

Definition new_Stats : Stats := mkStats 0 [].

(** ** The browser *)

Record Window : Type := mkWindow {
  innerWidth : number;
  innerHeight : number;
  devicePixelRatio : number
}.

(** Elements of the page: the renderer's canvas, the overlay's element, and
    whatever else the page holds. *)
Inductive Node : Type := Canvas | StatsDom | Foreign (n : nat).

Inductive Container : Type := AppDiv | Body.

#[global] Instance Node_eq_dec : EqDecision Node.
Proof. solve_decision. Defined.

#[global] Instance Container_eq_dec : EqDecision Container.
Proof. solve_decision. Defined.

Definition Node_code (n : Node) : nat :=
  match n with
  | Canvas => 0
  | StatsDom => 1
  | Foreign k => S (S k)
  end.

Definition Node_of_code (c : nat) : Node :=
  match c with
  | 0 => Canvas
  | 1 => StatsDom
  | S (S k) => Foreign k
  end.

#[global] Instance Node_countable : Countable Node.
Proof.
  apply (inj_countable' Node_code Node_of_code).
  intros [| |k]; reflexivity.
Defined.

(** The page: whether it has an [#app] element, and the parent of every
    attached element (an element has at most one parent). *)
Record Document : Type := mkDocument {
  has_app : bool;
  parents : gmap Node Container
}.

(** [n.parentNode], [None] for [null]. *)
Definition parentNode (n : Node) (d : Document) : option Container :=
  parents d !! n.

(** [parent.appendChild(n)] moves [n] under [parent]. *)
Definition attach (p : Container) (n : Node) (d : Document) : Document :=
  mkDocument (has_app d) (<[n := p]> (parents d)).

Definition detach (n : Node) (d : Document) : Document :=
  mkDocument (has_app d) (delete n (parents d)).

(** A page before the controller is constructed holds neither the canvas nor
    the overlay element: both are created by the constructor. *)
Record Page : Type := mkPage {
  page_has_app : bool;
  page_content : list (nat * Container)
}.

Definition load (p : Page) : Document :=
  mkDocument (page_has_app p)
    (list_to_map (map (λ e, (Foreign (fst e), snd e)) (page_content p))).

Record Platform : Type := mkPlatform {
  pf_window : Window;
  pf_page : Page;
  pf_nextHandle : positive
}.

(** ** The state: the fields of [ThreeJSScene] and the browser *)

Record State : Type := mkState {
  heap : list Object3D;
  scene : list nat;
  camera : PerspectiveCamera;
  renderer : WebGLRenderer;
  controls : option OrbitControls;
  stats : Stats;
  cube : option nat;
  animationFrameId : Z;
  window : Window;
  document : Document;
  nextHandle : positive;
  pending : list Z;
  resizeListeners : nat
}.

Definition set_heap (f : list Object3D -> list Object3D) (s : State) : State :=
  mkState (f (heap s)) (scene s) (camera s) (renderer s) (controls s) (stats s)
    (cube s) (animationFrameId s) (window s) (document s) (nextHandle s)
    (pending s) (resizeListeners s).

Definition set_scene (f : list nat -> list nat) (s : State) : State :=
  mkState (heap s) (f (scene s)) (camera s) (renderer s) (controls s) (stats s)
    (cube s) (animationFrameId s) (window s) (document s) (nextHandle s)
    (pending s) (resizeListeners s).

Definition set_camera (f : PerspectiveCamera -> PerspectiveCamera) (s : State) : State :=
  mkState (heap s) (scene s) (f (camera s)) (renderer s) (controls s) (stats s)
    (cube s) (animationFrameId s) (window s) (document s) (nextHandle s)
    (pending s) (resizeListeners s).

Definition set_renderer (f : WebGLRenderer -> WebGLRenderer) (s : State) : State :=
  mkState (heap s) (scene s) (camera s) (f (renderer s)) (controls s) (stats s)
    (cube s) (animationFrameId s) (window s) (document s) (nextHandle s)
    (pending s) (resizeListeners s).

Definition set_controls (c : option OrbitControls) (s : State) : State :=
  mkState (heap s) (scene s) (camera s) (renderer s) c (stats s)
    (cube s) (animationFrameId s) (window s) (document s) (nextHandle s)
    (pending s) (resizeListeners s).

Definition set_stats (f : Stats -> Stats) (s : State) : State :=
  mkState (heap s) (scene s) (camera s) (renderer s) (controls s) (f (stats s))
    (cube s) (animationFrameId s) (window s) (document s) (nextHandle s)
    (pending s) (resizeListeners s).

Definition set_cube (c : option nat) (s : State) : State :=
  mkState (heap s) (scene s) (camera s) (renderer s) (controls s) (stats s)
    c (animationFrameId s) (window s) (document s) (nextHandle s)
    (pending s) (resizeListeners s).

Definition set_animationFrameId (h : Z) (s : State) : State :=
  mkState (heap s) (scene s) (camera s) (renderer s) (controls s) (stats s)
    (cube s) h (window s) (document s) (nextHandle s)
    (pending s) (resizeListeners s).

Definition set_window (w : Window) (s : State) : State :=
  mkState (heap s) (scene s) (camera s) (renderer s) (controls s) (stats s)
    (cube s) (animationFrameId s) w (document s) (nextHandle s)
    (pending s) (resizeListeners s).

Definition set_document (f : Document -> Document) (s : State) : State :=
  mkState (heap s) (scene s) (camera s) (renderer s) (controls s) (stats s)
    (cube s) (animationFrameId s) (window s) (f (document s)) (nextHandle s)
    (pending s) (resizeListeners s).

Definition set_scheduler (n : positive) (p : list Z) (s : State) : State :=
  mkState (heap s) (scene s) (camera s) (renderer s) (controls s) (stats s)
    (cube s) (animationFrameId s) (window s) (document s) n p
    (resizeListeners s).

Definition set_resizeListeners (n : nat) (s : State) : State :=
  mkState (heap s) (scene s) (camera s) (renderer s) (controls s) (stats s)
    (cube s) (animationFrameId s) (window s) (document s) (nextHandle s)
    (pending s) n.

(** ** Effects and faults *)

Inductive Axis : Type := AxisX | AxisY.

(** What a method does to the libraries and the browser, in order. *)
Inductive Effect : Type :=
| RequestAnimationFrame (h : Z)
| CancelAnimationFrame (h : Z)
| StatsBegin
| StatsEnd
| RotationSet (obj : nat) (a : Axis) (v : number)
| ControlsUpdate
| Render (objs : list Object3D) (cam : PerspectiveCamera)
| ControlsDispose
| RendererDispose
| AppendChild (p : Container) (n : Node)
| RemoveChild (p : Container) (n : Node)
| AddEventListener (type : string).

Inductive Exception : Type := TypeError | NotFoundError.

Inductive Result (A : Type) : Type :=
| Done (a : A) (s : State) (log : list Effect)
| Throw (e : Exception).

Arguments Done {A} a s log.
Arguments Throw {A} e.

(** A method body: it runs from a state and either completes, with a new
    state and the effects it performed, or throws. *)
Definition M (A : Type) : Type := State -> Result A.

Definition ret {A} (a : A) : M A := fun s => Done a s [].

Definition bind {A B} (m : M A) (k : A -> M B) : M B :=
  fun s =>
    match m s with
    | Done a s1 l1 =>
        match k a s1 with
        | Done b s2 l2 => Done b s2 (l1 ++ l2)
        | Throw e => Throw e
        end
    | Throw e => Throw e
    end.

Definition throw {A} (e : Exception) : M A := fun _ => Throw e.
Definition gets {A} (f : State -> A) : M A := fun s => Done (f s) s [].
Definition modify (f : State -> State) : M unit := fun s => Done tt (f s) [].
Definition emit (e : Effect) : M unit := fun s => Done tt s [e].

Notation "'let!' x ':=' m 'in' k" := (bind m (fun x => k))
  (at level 10, x name, m at level 100, k at level 200).
Notation "m >> k" := (bind m (fun _ => k))
  (at level 61, left associativity).

(** Dereferencing a field that may still be undefined. *)
Definition deref {A} (o : option A) : M A :=
  match o with
  | Some a => ret a
  | None => throw TypeError
  end.

(** *** Browser and library calls *)

(** [requestAnimationFrame(cb)]: a fresh nonzero handle, queued. *)
Definition requestAnimationFrame : M Z :=
  let! n := gets nextHandle in
  let! q := gets pending in
  modify (set_scheduler (Pos.succ n) (q ++ [Z.pos n])) >>
  emit (RequestAnimationFrame (Z.pos n)) >>
  ret (Z.pos n).

(** [cancelAnimationFrame(h)]: the callback is dropped from the queue; an
    unknown handle is ignored. *)
Definition cancelAnimationFrame (h : Z) : M unit :=
  let! n := gets nextHandle in
  let! q := gets pending in
  modify (set_scheduler n (filter (λ k, k ≠ h) q)) >>
  emit (CancelAnimationFrame h).

(** [document.querySelector('#app')!], dereferenced. *)
Definition query_app (d : Document) : M Container :=
  if has_app d then ret AppDiv else throw TypeError.

(** [parent.appendChild(n)]. *)
Definition appendChild (p : Container) (n : Node) : M unit :=
  modify (set_document (attach p n)) >> emit (AppendChild p n).

(** [parent.removeChild(n)] throws when [n] is not a child of [parent]. *)
Definition removeChild (p : Container) (n : Node) : M unit :=
  let! d := gets document in
  if bool_decide (parentNode n d = Some p)
  then modify (set_document (detach n)) >> emit (RemoveChild p n)
  else throw NotFoundError.

(** [new X(...)]: the object is allocated and referred to by its index. *)
Definition alloc (o : Object3D) : M nat :=
  let! h := gets heap in
  modify (set_heap (λ h, h ++ [o])) >> ret (length h).

Definition mesh_at (i : nat) : M Mesh :=
  let! h := gets heap in
  match h !! i with
  | Some (ObjMesh m) => ret m
  | _ => throw TypeError
  end.

Definition directional_at (i : nat) : M DirectionalLight :=
  let! h := gets heap in
  match h !! i with
  | Some (ObjDirectional l) => ret l
  | _ => throw TypeError
  end.

Definition store (i : nat) (o : Object3D) : M unit :=
  modify (set_heap (λ h, <[i := o]> h)).

(** [scene.add(o)]: [o] leaves its former parent and is pushed last. *)
Definition scene_add (i : nat) : M unit :=
  modify (set_scene (λ l, filter (λ j, j ≠ i) l ++ [i])).

(** The objects a scene holds, as the renderer reads them. *)
Definition scene_objects (s : State) : list Object3D :=
  omap (λ i, heap s !! i) (scene s).

Definition setSize (w h : number) (r : WebGLRenderer) : WebGLRenderer :=
  mkRenderer (antialias r) (mkVector2 w h) (pixelRatio r) (shadowMap_enabled r)
    (shadowMap_type r) (clearColor r) (clearAlpha r) (context_released r).

Definition setPixelRatio (v : number) (r : WebGLRenderer) : WebGLRenderer :=
  mkRenderer (antialias r) (r_size r) v (shadowMap_enabled r)
    (shadowMap_type r) (clearColor r) (clearAlpha r) (context_released r).

Definition set_shadowMap_enabled (b : bool) (r : WebGLRenderer) : WebGLRenderer :=
  mkRenderer (antialias r) (r_size r) (pixelRatio r) b
    (shadowMap_type r) (clearColor r) (clearAlpha r) (context_released r).

Definition set_shadowMap_type (t : ShadowMapType) (r : WebGLRenderer) : WebGLRenderer :=
  mkRenderer (antialias r) (r_size r) (pixelRatio r) (shadowMap_enabled r)
    t (clearColor r) (clearAlpha r) (context_released r).

Definition setClearColor (c : Z) (a : number) (r : WebGLRenderer) : WebGLRenderer :=
  mkRenderer (antialias r) (r_size r) (pixelRatio r) (shadowMap_enabled r)
    (shadowMap_type r) c a (context_released r).

(** Modelled from the spec: [renderer.dispose()] is code of three.js, absent
    from [src/]; the spec has it release the graphics context of the
    surface. The flag records that it was called. *)
Definition release_context (r : WebGLRenderer) : WebGLRenderer :=
  mkRenderer (antialias r) (r_size r) (pixelRatio r) (shadowMap_enabled r)
    (shadowMap_type r) (clearColor r) (clearAlpha r) true.

Definition set_aspect (a : number) (c : PerspectiveCamera) : PerspectiveCamera :=
  mkCamera (fov c) a (near c) (far c) (cam_position c) (projection c).

Definition set_cam_position (f : Vector3 -> Vector3) (c : PerspectiveCamera) : PerspectiveCamera :=
  mkCamera (fov c) (aspect c) (near c) (far c) (f (cam_position c)) (projection c).

Definition set_x (v : number) (p : Vector3) : Vector3 := mkVector3 v (y p) (z p).
Definition set_y (v : number) (p : Vector3) : Vector3 := mkVector3 (x p) v (z p).
Definition set_z (v : number) (p : Vector3) : Vector3 := mkVector3 (x p) (y p) v.

Definition set_rotation (f : Euler -> Euler) (m : Mesh) : Mesh :=
  mkMesh (geometry m) (material m) (position m) (f (rotation m))
    (castShadow m) (receiveShadow m).

Definition set_position (f : Vector3 -> Vector3) (m : Mesh) : Mesh :=
  mkMesh (geometry m) (material m) (f (position m)) (rotation m)
    (castShadow m) (receiveShadow m).

Definition set_castShadow (b : bool) (m : Mesh) : Mesh :=
  mkMesh (geometry m) (material m) (position m) (rotation m) b (receiveShadow m).

Definition set_receiveShadow (b : bool) (m : Mesh) : Mesh :=
  mkMesh (geometry m) (material m) (position m) (rotation m) (castShadow m) b.

Definition set_rx (v : number) (r : Euler) : Euler := mkEuler v (ry r) (rz r).
Definition set_ry (v : number) (r : Euler) : Euler := mkEuler (rx r) v (rz r).

(** An assignment to a field of the mesh referred to by [i]. *)
Definition assign_mesh (i : nat) (f : Mesh -> Mesh) : M unit :=
  let! m := mesh_at i in store i (ObjMesh (f m)).

Definition assign_directional (i : nat) (f : DirectionalLight -> DirectionalLight) : M unit :=
  let! l := directional_at i in store i (ObjDirectional (f l)).

(** An assignment to a field of [this.controls]. *)
Definition assign_controls (f : OrbitControls -> OrbitControls) : M unit :=
  let! o := gets controls in
  let! c := deref o in
  modify (set_controls (Some (f c))).

Definition set_dl_position (p : Vector3) (l : DirectionalLight) : DirectionalLight :=
  mkDirectionalLight (dl_color l) (dl_intensity l) p (dl_castShadow l) (dl_mapSize l).

Definition set_dl_castShadow (b : bool) (l : DirectionalLight) : DirectionalLight :=
  mkDirectionalLight (dl_color l) (dl_intensity l) (dl_position l) b (dl_mapSize l).

Definition set_dl_mapSize (f : Vector2 -> Vector2) (l : DirectionalLight) : DirectionalLight :=
  mkDirectionalLight (dl_color l) (dl_intensity l) (dl_position l) (dl_castShadow l)
    (f (dl_mapSize l)).

Definition set_width (v : number) (p : Vector2) : Vector2 := mkVector2 v (height p).
Definition set_height (v : number) (p : Vector2) : Vector2 := mkVector2 (width p) v.

Definition set_enableDamping (b : bool) (c : OrbitControls) : OrbitControls :=
  mkControls b (dampingFactor c) (minDistance c) (maxDistance c) (listening c).

Definition set_dampingFactor (v : number) (c : OrbitControls) : OrbitControls :=
  mkControls (enableDamping c) v (minDistance c) (maxDistance c) (listening c).

Definition set_minDistance (v : number) (c : OrbitControls) : OrbitControls :=
  mkControls (enableDamping c) (dampingFactor c) v (maxDistance c) (listening c).

Definition set_maxDistance (v : number) (c : OrbitControls) : OrbitControls :=
  mkControls (enableDamping c) (dampingFactor c) (minDistance c) v (listening c).

Definition unbind (c : OrbitControls) : OrbitControls :=
  mkControls (enableDamping c) (dampingFactor c) (minDistance c) (maxDistance c) false.

Definition showPanel (n : Z) (t : Stats) : Stats := mkStats n (classList t).

(** [classList.add(c)] adds a class that is not there yet. *)
Definition classList_add (c : string) (t : Stats) : Stats :=
  mkStats (panel t)
    (if bool_decide (c ∈ classList t) then classList t else classList t ++ [c]).

(** ** The orbit controls add-on *)

(** [OrbitControls.update()] is code of the three.js add-on, not of the
    controller: an interface. What the add-on brings to an update of its own
    (what the user did on the canvas since the previous update, and the
    motion that damping still carries from earlier input) is its [Gesture];
    the settings are the ones [main.ts] assigns. *)
Class OrbitLibrary : Type := {
  Gesture : Type;
  (** No input at all, as before the user has touched the canvas. *)
  idle : Gesture;
  (** Where [update()] leaves the camera the controls are bound to. *)
  orbit_update : Gesture -> OrbitControls -> PerspectiveCamera -> PerspectiveCamera
}.

(** ** The class *)

Section ThreeJSScene.

Context {lib : OrbitLibrary}.

(** The field initialisers and the four [new] of the constructor. *)
Definition new_ThreeJSScene (p : Platform) : State :=
  let w := pf_window p in
  mkState [] []
    (new_PerspectiveCamera (int 75) (div (innerWidth w) (innerHeight w))
       (dec 1 10) (int 1000))
    (new_WebGLRenderer true) None new_Stats None 0
    w (load (pf_page p)) (pf_nextHandle p) [] 0.

Definition this_cube : M nat :=
  let! o := gets cube in deref o.

Definition init : M unit :=
  let! w := gets window in
  modify (set_renderer (setSize (innerWidth w) (innerHeight w))) >>
  modify (set_renderer (setPixelRatio (devicePixelRatio w))) >>
  modify (set_renderer (set_shadowMap_enabled true)) >>
  modify (set_renderer (set_shadowMap_type PCFSoftShadowMap)) >>
  modify (set_renderer (setClearColor 0x222222 (int 1))) >>
  let! d := gets document in
  let! app := query_app d in
  appendChild app Canvas >>
  modify (set_camera (set_cam_position (set_z (int 5)))) >>
  modify (set_camera (set_cam_position (set_y (int 2)))) >>
  modify (set_camera (set_cam_position (set_x (int 2)))).

Definition createLights : M unit :=
  let! ambientLight := alloc (ObjAmbient (mkAmbientLight 0x404040 (dec 6 10))) in
  scene_add ambientLight >>
  let! directionalLight :=
    alloc (ObjDirectional (new_DirectionalLight 0xffffff (int 1))) in
  assign_directional directionalLight
    (set_dl_position (mkVector3 (int 10) (int 10) (int 5))) >>
  assign_directional directionalLight (set_dl_castShadow true) >>
  assign_directional directionalLight (set_dl_mapSize (set_width (int 2048))) >>
  assign_directional directionalLight (set_dl_mapSize (set_height (int 2048))) >>
  scene_add directionalLight.

Definition createGeometry : M unit :=
  let geometry := BoxGeometry (int 1) (int 1) (int 1) in
  let material := {| color := 0x00ff88 |} in
  let! c := alloc (ObjMesh (new_Mesh geometry material)) in
  modify (set_cube (Some c)) >>
  let! c := this_cube in
  assign_mesh c (set_castShadow true) >>
  let! c := this_cube in
  assign_mesh c (set_receiveShadow true) >>
  let! c := this_cube in
  scene_add c >>
  let planeGeometry := PlaneGeometry (int 10) (int 10) in
  let planeMaterial := {| color := 0x666666 |} in
  let! plane := alloc (ObjMesh (new_Mesh planeGeometry planeMaterial)) in
  assign_mesh plane (set_rotation (set_rx (div (neg Math_PI) (int 2)))) >>
  assign_mesh plane (set_position (set_y (int (-1)))) >>
  assign_mesh plane (set_receiveShadow true) >>
  scene_add plane.

(** [new OrbitControls(camera, domElement)] runs the add-on's [update()]
    once, with the settings the controls are created with and before any
    input; that call is the add-on's, not one of [main.ts]. *)
Definition setupControls : M unit :=
  modify (set_controls (Some new_OrbitControls)) >>
  modify (set_camera (orbit_update idle new_OrbitControls)) >>
  assign_controls (set_enableDamping true) >>
  assign_controls (set_dampingFactor (dec 5 100)) >>
  assign_controls (set_minDistance (int 2)) >>
  assign_controls (set_maxDistance (int 20)).

Definition setupStats : M unit :=
  modify (set_stats (showPanel 0)) >>
  modify (set_stats (classList_add "stats")) >>
  appendChild Body StatsDom.

Definition setupEventListeners : M unit :=
  let! n := gets resizeListeners in
  modify (set_resizeListeners (S n)) >>
  emit (AddEventListener "resize").

Definition onWindowResize : M unit :=
  let! w := gets window in
  modify (set_camera (set_aspect (div (innerWidth w) (innerHeight w)))) >>
  modify (set_camera updateProjectionMatrix) >>
  let! w := gets window in
  modify (set_renderer (setSize (innerWidth w) (innerHeight w))).

(** [this.controls.update()], with the input the controls have gathered. *)
Definition controls_update (g : Gesture) : M unit :=
  let! o := gets controls in
  let! c := deref o in
  modify (set_camera (orbit_update g c)) >>
  emit ControlsUpdate.

(** [this.renderer.render(this.scene, this.camera)]. *)
Definition render : M unit :=
  let! objs := gets scene_objects in
  let! cam := gets camera in
  emit (Render objs cam).

Definition animate (g : Gesture) : M unit :=
  let! h := requestAnimationFrame in
  modify (set_animationFrameId h) >>
  emit StatsBegin >>
  let! c := this_cube in
  let! m := mesh_at c in
  let v := add (rx (rotation m)) (dec 1 100) in
  assign_mesh c (set_rotation (set_rx v)) >>
  emit (RotationSet c AxisX v) >>
  let! c := this_cube in
  let! m := mesh_at c in
  let v := add (ry (rotation m)) (dec 1 100) in
  assign_mesh c (set_rotation (set_ry v)) >>
  emit (RotationSet c AxisY v) >>
  controls_update g >>
  render >>
  emit StatsEnd.

Definition dispose : M unit :=
  let! h := gets animationFrameId in
  (if bool_decide (h ≠ 0%Z) then cancelAnimationFrame h else ret tt) >>
  assign_controls unbind >>
  emit ControlsDispose >>
  modify (set_renderer release_context) >>
  emit RendererDispose >>
  let! d := gets document in
  match parentNode StatsDom d with
  | Some p => removeChild p StatsDom
  | None => ret tt
  end.

(** The constructor up to the start of the loop. *)
Definition setup : M unit :=
  init >> createLights >> createGeometry >> setupControls >> setupStats >>
  setupEventListeners.

(** [new ThreeJSScene()]: the constructor runs the first animation step
    itself, before any input can reach the controls. *)
Definition construct (p : Platform) : Result unit :=
  (setup >> animate idle) (new_ThreeJSScene p).

(** *** The browser's event loop *)

(** What the browser delivers to the controller: a display refresh that
    runs the callback scheduled under handle [h] (with the time stamp the
    browser passes to it, and the input the controls gathered since the
    previous frame), a resize of the window, and a call of [dispose]. *)
Inductive Event : Type :=
| Frame (h : Z) (timestamp : number) (g : Gesture)
| Resize (w : Window)
| Dispose.

(** The browser runs a callback only while it is scheduled. *)
Definition enabled (ev : Event) (s : State) : bool :=
  match ev with
  | Frame h _ _ => bool_decide (h ∈ pending s)
  | Resize _ | Dispose => true
  end.

(** The browser takes the callback off its list before it calls it. *)
Definition dequeue (h : Z) : M unit :=
  let! n := gets nextHandle in
  let! q := gets pending in
  modify (set_scheduler n (filter (λ k, k ≠ h) q)).

Fixpoint times (n : nat) (m : M unit) : M unit :=
  match n with
  | O => ret tt
  | S n => m >> times n m
  end.

Definition deliver (ev : Event) : M unit :=
  match ev with
  | Frame h _ g => dequeue h >> animate g
  | Resize w =>
      modify (set_window w) >>
      let! n := gets resizeListeners in
      times n onWindowResize
  | Dispose => dispose
  end.

(** A run of the event loop; [None] when an event cannot occur or a
    handler throws. *)
Fixpoint run (evs : list Event) (s : State) : option (State * list Effect) :=
  match evs with
  | [] => Some (s, [])
  | ev :: evs =>
      if enabled ev s then
        match deliver ev s with
        | Done _ s1 l1 =>
            match run evs s1 with
            | Some (s2, l2) => Some (s2, l1 ++ l2)
            | None => None
            end
        | Throw _ => None
        end
      else None
  end.

(** The states of a controller constructed on platform [p]. *)
Definition reachable (p : Platform) (s : State) : Prop :=
  ∃ s0 l0 evs l, construct p = Done tt s0 l0 ∧ run evs s0 = Some (s, l).

Definition is_frame (ev : Event) : bool :=
  match ev with
  | Frame _ _ _ => true
  | _ => false
  end.

(** The number of animation callbacks the browser ran. *)
Definition frames (evs : list Event) : nat :=
  length (filter (λ ev, is_frame ev = true) evs).

(** [n] additions of 0.01, as the loop performs them. *)
Definition spin (n : nat) (v : number) : number :=
  Nat.iter n (λ r, add r (dec 1 100)) v.

End ThreeJSScene.

(** ** The states the methods leave *)

Definition resized (s : State) : State :=
  let w := window s in
  set_renderer (setSize (innerWidth w) (innerHeight w))
    (set_camera
       (λ c, updateProjectionMatrix (set_aspect (div (innerWidth w) (innerHeight w)) c))
       s).

Definition disposed (k : OrbitControls) (s : State) : State :=
  let h := animationFrameId s in
  set_document
    (match parentNode StatsDom (document s) with
     | Some _ => detach StatsDom
     | None => λ d, d
     end)
    (set_renderer release_context
       (set_controls (Some (unbind k))
          (set_scheduler (nextHandle s)
             (if bool_decide (h ≠ 0%Z) then filter (λ j, j ≠ h) (pending s) else pending s)
             s))).

Definition dispose_log (s : State) : list Effect :=
  let h := animationFrameId s in
  (if bool_decide (h ≠ 0%Z) then [CancelAnimationFrame h] else []) ++
  [ControlsDispose; RendererDispose] ++
  match parentNode StatsDom (document s) with
  | Some p => [RemoveChild p StatsDom]
  | None => []
  end.

(** The camera as the constructor builds it and [init] places it, and the
    controls and the scene objects as [setup] leaves them. *)
Definition camera0 (w : Window) : PerspectiveCamera :=
  let a := div (innerWidth w) (innerHeight w) in
  mkCamera (int 75) a (dec 1 10) (int 1000)
    (mkVector3 (int 2) (int 2) (int 5))
    (mkProjection (int 75) a (dec 1 10) (int 1000)).

Definition controls0 : OrbitControls :=
  mkControls true (dec 5 100) (int 2) (int 20) true.

Definition ambient0 : Object3D :=
  ObjAmbient (mkAmbientLight 0x404040 (dec 6 10)).

Definition directional0 : Object3D :=
  ObjDirectional
    (mkDirectionalLight 0xffffff (int 1) (mkVector3 (int 10) (int 10) (int 5))
       true (mkVector2 (int 2048) (int 2048))).

Definition cube_mesh (r : Euler) : Mesh :=
  mkMesh (BoxGeometry (int 1) (int 1) (int 1)) {| color := 0x00ff88 |} origin
    r true true.

Definition ground0 : Object3D :=
  ObjMesh
    (mkMesh (PlaneGeometry (int 10) (int 10)) {| color := 0x666666 |}
       (mkVector3 (int 0) (int (-1)) (int 0))
       (mkEuler (div (neg Math_PI) (int 2)) (int 0) (int 0)) false true).

Definition renderer0 (w : Window) : WebGLRenderer :=
  mkRenderer true (mkVector2 (innerWidth w) (innerHeight w))
    (devicePixelRatio w) true PCFSoftShadowMap 0x222222 (int 1) false.

(** The state at the end of [setup]: the camera has been through the
    update that the creation of the controls runs. *)
Definition setup_state {lib : OrbitLibrary} (p : Platform) : State :=
  mkState [ambient0; directional0; ObjMesh (cube_mesh unrotated); ground0]
    [0; 1; 2; 3]
    (orbit_update idle new_OrbitControls (camera0 (pf_window p)))
    (renderer0 (pf_window p))
    (Some controls0) (mkStats 0 ["stats"%string]) (Some 2) 0 (pf_window p)
    (attach Body StatsDom (attach AppDiv Canvas (load (pf_page p))))
    (pf_nextHandle p) [] 1.

Definition setup_log : list Effect :=
  [AppendChild AppDiv Canvas; AppendChild Body StatsDom;
   AddEventListener "resize"].

(** The state an animation step leaves when it finds the mesh [m] under the
    reference [c] and the controls [k], and the effects it performs. *)
Definition animated {lib : OrbitLibrary} (g : Gesture) (k : OrbitControls)
    (c : nat) (m : Mesh) (s : State) : State :=
  let h := Z.pos (nextHandle s) in
  let v1 := add (rx (rotation m)) (dec 1 100) in
  let v2 := add (ry (rotation m)) (dec 1 100) in
  let m' := set_rotation (set_ry v2) (set_rotation (set_rx v1) m) in
  set_camera (orbit_update g k)
    (set_heap (λ l, <[c := ObjMesh m']> l)
       (set_animationFrameId h
          (set_scheduler (Pos.succ (nextHandle s)) (pending s ++ [h]) s))).

Definition animate_log (c : nat) (m : Mesh) (s s' : State) : list Effect :=
  [RequestAnimationFrame (Z.pos (nextHandle s)); StatsBegin;
   RotationSet c AxisX (add (rx (rotation m)) (dec 1 100));
   RotationSet c AxisY (add (ry (rotation m)) (dec 1 100));
   ControlsUpdate; Render (scene_objects s') (camera s'); StatsEnd].

(** The state the constructor leaves: [setup], then the first step. *)
Definition constructed {lib : OrbitLibrary} (p : Platform) : State :=
  animated idle controls0 2 (cube_mesh unrotated) (setup_state p).

(** A state in which the animation step finds its cube and its controls. *)
Definition ready (s : State) : Prop :=
  ∃ c m k, cube s = Some c ∧ heap s !! c = Some (ObjMesh m) ∧ controls s = Some k.

(** What holds of the controller constructed on platform [p] once its
    animation step has run [n] times. *)
Record inv (p : Platform) (n : nat) (s : State) : Prop := mkInv {
  inv_heap :
    heap s = [ambient0; directional0;
              ObjMesh (cube_mesh (mkEuler (spin n (int 0)) (spin n (int 0)) (int 0)));
              ground0];
  inv_scene : scene s = [0; 1; 2; 3];
  inv_cube : cube s = Some 2;
  inv_controls : controls s = Some controls0 ∨ controls s = Some (unbind controls0);
  inv_pending : pending s = [] ∨ pending s = [animationFrameId s];
  inv_handle : animationFrameId s ≠ 0%Z;
  inv_canvas : parentNode Canvas (document s) = Some AppDiv;
  inv_ratio : pixelRatio (renderer s) = devicePixelRatio (pf_window p);
  inv_listeners : resizeListeners s = 1
}.

(** The effects an animation step performs. *)
Definition loop_effect (e : Effect) : bool :=
  match e with
  | RequestAnimationFrame _ | StatsBegin | StatsEnd | RotationSet _ _ _
  | ControlsUpdate | Render _ _ => true
  | _ => false
  end.

Definition is_cancel (e : Effect) : bool :=
  match e with
  | CancelAnimationFrame _ => true
  | _ => false
  end.

Definition is_removal (e : Effect) : bool :=
  match e with
  | RemoveChild _ _ => true
  | _ => false
  end.

(** ** The specification's wording *)

(** The order in which the specification lists the effects of an animation
    step: the rescheduling comes last. *)
Definition listed_order (l : list Effect) : Prop :=
  ∃ h c v1 v2 objs cam,
    l = [StatsBegin; RotationSet c AxisX v1; RotationSet c AxisY v2;
         ControlsUpdate; Render objs cam; StatsEnd; RequestAnimationFrame h].

(** An angle [v] that is [n] times 0.01 radians, modulo 2 pi. *)
Definition congruent_2pi (v : number) (n : nat) : Prop :=
  ∃ (k num den : Z), exact v = Some (num, den) ∧
    (IZR num / IZR den = INR n * / 100 + 2 * PI * IZR k)%R.

(** ** A platform and an add-on to run the controller on *)

(** Controls that leave the camera where it is. *)
Definition still : OrbitLibrary :=
  {| Gesture := unit; idle := tt; orbit_update := λ _ _ c, c |}.


(** An 800 x 600 window at pixel ratio 2, on a page with an [#app] element
    and two elements of its own. *)
Definition demo : Platform :=
  mkPlatform (mkWindow (int 800) (int 600) (int 2))
    (mkPage true [(0, Body); (1, AppDiv)]) 1.

(** The same window after a resize to 1024 x 768. *)
Definition demo_resized : Window :=
  mkWindow (int 1024) (int 768) (int 2).

(** The controller constructed on [demo]. *)
Definition demo_state : State :=
  match construct (lib := still) demo with
  | Done _ s _ => s
  | Throw _ => new_ThreeJSScene demo
  end.


(** Five frames, 16 ms apart but for a long third one, and a resize. *)
Definition demo_events : list (Event (lib := still)) :=
  [@Frame still 1 (int 16) tt; @Frame still 2 (int 33) tt;
   Resize demo_resized; @Frame still 3 (int 950) tt;
   @Frame still 4 (int 966) tt; @Frame still 5 (int 983) tt].

(** The controller after these events. *)
Definition demo_later : State :=
  match run demo_events demo_state with
  | Some (s, _) => s
  | None => demo_state
  end.

(** A page without the [#app] element. *)
Definition bare : Platform :=
  mkPlatform (mkWindow (int 800) (int 600) (int 1)) (mkPage false []) 1.

(** ** The life cycle *)

Definition is_dispose {lib : OrbitLibrary} (ev : Event) : bool :=
  match ev with
  | Dispose => true
  | _ => false
  end.

(** Whether [dispose] was called in a run. *)
Definition disposed_in {lib : OrbitLibrary} (evs : list Event) : bool :=
  existsb is_dispose evs.

(** The overlay as [setupStats] configures it. *)
Definition stats0 : Stats := mkStats 0 ["stats"%string].

(** What holds of the surface, the controls, the overlay, the schedule and
    the page of the controller constructed on platform [p], before
    ([d = false]) and after ([d = true]) a call of [dispose]. *)
Record status (p : Platform) (d : bool) (s : State) : Prop := mkStatus {
  status_renderer :
    renderer s =
      (if d then release_context else λ r, r)
        (setSize (innerWidth (window s)) (innerHeight (window s))
           (renderer0 (pf_window p)));
  status_controls :
    controls s = Some (if d then unbind controls0 else controls0);
  status_stats : stats s = stats0;
  status_overlay :
    parentNode StatsDom (document s) = if d then None else Some Body;
  status_pending : pending s = if d then [] else [animationFrameId s];
  status_foreign :
    ∀ n, parentNode (Foreign n) (document s)
         = parentNode (Foreign n) (load (pf_page p))
}.

(** The state a resize event leaves: the window changes, and each
    registered listener runs the handler. *)
Definition after_resize (w : Window) (s : State) : State :=
  match resizeListeners s with
  | O => set_window w s
  | S _ => resized (set_window w s)
  end.

(** A frame, a call of [dispose], and a resize after it. *)
Definition demo_closing : list (Event (lib := still)) :=
  [@Frame still 1 (int 16) tt; Dispose; Resize demo_resized].

(** The controller after these events. *)
Definition demo_closed : State :=
  match run demo_closing demo_state with
  | Some (s, _) => s
  | None => demo_state
  end.

(** How many effects of a log satisfy [f]. *)
Definition tally (f : Effect -> bool) (l : list Effect) : nat :=
  length (List.filter f l).

Definition is_render (e : Effect) : bool :=
  match e with
  | Render _ _ => true
  | _ => false
  end.

Definition is_request (e : Effect) : bool :=
  match e with
  | RequestAnimationFrame _ => true
  | _ => false
  end.

Definition is_begin (e : Effect) : bool :=
  match e with
  | StatsBegin => true
  | _ => false
  end.

Definition is_end (e : Effect) : bool :=
  match e with
  | StatsEnd => true
  | _ => false
  end.

(** * Properties *)

Section Properties.

Context {lib : OrbitLibrary}.

(** Running the monad's operations where the state allows it. *)
Ltac run_monad :=
  unfold bind, this_cube, gets, deref, mesh_at, directional_at, assign_mesh,
    assign_directional, assign_controls, cancelAnimationFrame, removeChild,
    appendChild, emit, modify, store, ret, throw;
  cbn.

Lemma bind_Done {A B} (m : M A) (k : A -> M B) s a s1 l1 :
  m s = Done a s1 l1 ->
  bind m k s =
    match k a s1 with
    | Done b s2 l2 => Done b s2 (l1 ++ l2)
    | Throw e => Throw e
    end.
Proof. intros H. unfold bind. rewrite H. reflexivity. Qed.

(** ** Literals *)

(** The literal 0.01 is the double 0x3F847AE147AE147B, a little above one
    hundredth. *)
Lemma literal_0_01 : dec 1 100 = S754_finite false 0x147AE147AE147B (-59).
Proof. reflexivity. Qed.

Lemma literal_0_01_exact :
  exact (dec 1 100) = Some (5764607523034235, 2 ^ 59)%Z ∧
  (2 ^ 59 < 100 * 5764607523034235 < 2 ^ 59 + 50)%Z.
Proof. split; [reflexivity|]. split; reflexivity. Qed.

(** ** What each method does *)

Lemma dequeue_spec h s :
  dequeue h s =
    Done tt (set_scheduler (nextHandle s) (filter (λ k, k ≠ h) (pending s)) s) [].
Proof. destruct s. reflexivity. Qed.

Lemma animate_spec g s c m k :
  cube s = Some c -> heap s !! c = Some (ObjMesh m) -> controls s = Some k ->
  animate g s =
    Done tt (animated g k c m s) (animate_log c m s (animated g k c m s)).
Proof.
  intros Hc Hm Hk. destruct s; simpl in *; subst.
  assert (Hlt : c < length heap0) by (eapply lookup_lt_Some; eauto).
  unfold animate, controls_update, render, requestAnimationFrame.
  repeat first
    [ progress run_monad
    | rewrite Hm
    | rewrite list_lookup_insert_eq by (rewrite ?length_insert; exact Hlt) ].
  unfold animate_log, animated, scene_objects, set_camera, set_heap,
    set_animationFrameId, set_scheduler; cbn.
  rewrite !list_insert_insert_eq. reflexivity.
Qed.

Lemma onWindowResize_spec s : onWindowResize s = Done tt (resized s) [].
Proof. destruct s. reflexivity. Qed.

Lemma resized_idem s : resized (resized s) = resized s.
Proof. destruct s. reflexivity. Qed.

Lemma times_onWindowResize n s :
  times (S n) onWindowResize s = Done tt (resized s) [].
Proof.
  revert s. induction n as [|n IH]; intros s.
  - destruct s. reflexivity.
  - change (times (S (S n)) onWindowResize s)
      with ((onWindowResize >> times (S n) onWindowResize) s).
    unfold bind. rewrite onWindowResize_spec, IH, resized_idem. reflexivity.
Qed.

Lemma dispose_spec s k :
  controls s = Some k -> dispose s = Done tt (disposed k s) (dispose_log s).
Proof.
  intros Hk. destruct s; simpl in *; subst.
  unfold dispose, disposed, dispose_log. run_monad.
  destruct (bool_decide (animationFrameId0 ≠ 0%Z)); cbn;
    destruct (parentNode StatsDom document0) as [c|] eqn:Hp; cbn;
    rewrite ?Hp; cbn; try rewrite bool_decide_true by reflexivity; reflexivity.
Qed.

Lemma dispose_throws s : controls s = None -> dispose s = Throw TypeError.
Proof.
  intros Hk. destruct s; simpl in *; subst.
  unfold dispose. run_monad.
  destruct (bool_decide (animationFrameId0 ≠ 0%Z)); reflexivity.
Qed.

Lemma setup_spec p :
  page_has_app (pf_page p) = true ->
  setup (new_ThreeJSScene p) = Done tt (setup_state p) setup_log.
Proof. destruct p as [w [a c] n]; simpl; intros ->. reflexivity. Qed.

Lemma setup_throws p :
  page_has_app (pf_page p) = false ->
  setup (new_ThreeJSScene p) = Throw TypeError.
Proof. destruct p as [w [a c] n]; simpl; intros ->. reflexivity. Qed.

Lemma setup_ready p : ready (setup_state p).
Proof. exists 2, (cube_mesh unrotated), controls0. auto. Qed.

(** The constructor completes exactly on a page that has the [#app]
    element, and leaves what its first animation step makes of the state
    [setup] built. *)
Lemma construct_spec p :
  page_has_app (pf_page p) = true ->
  construct p =
    Done tt (constructed p)
      (setup_log ++
       animate_log 2 (cube_mesh unrotated) (setup_state p) (constructed p)).
Proof.
  intros Hp. unfold construct, bind. rewrite (setup_spec p Hp).
  rewrite (animate_spec idle (setup_state p) 2 (cube_mesh unrotated) controls0)
    by reflexivity.
  reflexivity.
Qed.

Lemma construct_throws p :
  page_has_app (pf_page p) = false -> construct p = Throw TypeError.
Proof. intros Hp. unfold construct, bind. rewrite (setup_throws p Hp). reflexivity. Qed.

Lemma construct_app p s l :
  construct p = Done tt s l -> page_has_app (pf_page p) = true.
Proof.
  intros H. destruct (page_has_app (pf_page p)) eqn:Hp; [reflexivity|].
  rewrite (construct_throws p Hp) in H. discriminate.
Qed.

(** ** The invariant of the event loop *)

Lemma spin_S n v : spin (S n) v = add (spin n v) (dec 1 100).
Proof. reflexivity. Qed.

Lemma inv_ready p n s : inv p n s -> ready s.
Proof.
  intros [Hh _ Hc Hk _ _ _ _ _]. unfold ready. rewrite Hh, Hc.
  destruct Hk as [-> | ->]; eexists 2, _, _; split_and!; reflexivity.
Qed.

Lemma construct_inv p s l : construct p = Done tt s l -> inv p 1 s.
Proof.
  intros H. rewrite (construct_spec p (construct_app p s l H)) in H.
  injection H as <- _. destruct p as [w pg n]. split; cbn; auto.
  rewrite lookup_insert_ne by discriminate. apply lookup_insert_eq.
Qed.

Lemma frame_inv p n s h t g :
  inv p n s -> enabled (Frame h t g) s = true ->
  ∃ s' l, deliver (Frame h t g) s = Done tt s' l ∧ inv p (S n) s' ∧
          pending s = [h] ∧ animationFrameId s = h.
Proof.
  intros [Hh Hs Hc Hk Hp Hid Hcv Hr Hl] He. simpl in He.
  apply bool_decide_eq_true in He.
  destruct Hp as [Hp|Hp]; rewrite Hp in He.
  { apply elem_of_nil in He. destruct He. }
  apply list_elem_of_singleton in He. subst h.
  assert (∃ k, controls s = Some k ∧ (k = controls0 ∨ k = unbind controls0))
    as (k & Hk' & Hk'') by (destruct Hk; eauto).
  unfold deliver. rewrite (bind_Done _ _ _ _ _ _ (dequeue_spec _ s)).
  destruct s; simpl in *; subst.
  erewrite animate_spec by reflexivity. cbn.
  eexists _, _. split; [reflexivity|].
  split; [|auto]. split; cbn; auto.
  rewrite decide_False by (intros H; apply H; reflexivity). auto.
Qed.

Lemma resize_inv p n s w :
  inv p n s ->
  deliver (Resize w) s = Done tt (resized (set_window w s)) [] ∧
  inv p n (resized (set_window w s)).
Proof.
  intros [Hh Hs Hc Hk Hp Hid Hcv Hr Hl].
  split.
  - unfold deliver, bind, modify, gets. cbn. rewrite Hl.
    rewrite times_onWindowResize. reflexivity.
  - destruct s; simpl in *; subst. split; cbn; auto.
Qed.

Lemma dispose_inv p n s :
  inv p n s ->
  ∃ k, controls s = Some k ∧
       deliver Dispose s = Done tt (disposed k s) (dispose_log s) ∧
       inv p n (disposed k s) ∧ pending (disposed k s) = [].
Proof.
  intros [Hh Hs Hc Hk Hp Hid Hcv Hr Hl].
  assert (∃ k, controls s = Some k ∧ (k = controls0 ∨ k = unbind controls0))
    as (k & Hk' & Hk'') by (destruct Hk; eauto).
  exists k. split; [exact Hk'|]. split; [apply dispose_spec; exact Hk'|].
  assert (Hq : pending (disposed k s) = []).
  { destruct s; simpl in *; subst. cbn.
    rewrite bool_decide_true by exact Hid.
    destruct Hp as [-> | ->]; cbn; [reflexivity|].
    rewrite decide_False by (intros H; apply H; reflexivity). reflexivity. }
  split; [|exact Hq].
  split; [ | | | | left; exact Hq | | | | ];
    destruct s; simpl in *; subst; cbn; auto.
  - destruct Hk'' as [-> | ->]; auto.
  - unfold parentNode in *. destruct (parents document0 !! StatsDom); cbn; auto.
    rewrite lookup_delete_ne by discriminate. exact Hcv.
Qed.

Lemma run_inv p evs :
  ∀ n s s' l, inv p n s -> run evs s = Some (s', l) -> inv p (n + frames evs) s'.
Proof.
  induction evs as [|ev evs IH]; intros n s s' l Hi Hr; cbn [run frames] in *.
  - injection Hr as <- <-. rewrite Nat.add_0_r. exact Hi.
  - destruct (enabled ev s) eqn:He; [|discriminate].
    destruct ev as [h t g|w|]; cbn [frames is_frame Nat.add].
    + destruct (frame_inv p n s h t g Hi He) as (s1 & l1 & Hd & Hi1 & _).
      rewrite Hd in Hr.
      destruct (run evs s1) as [[s2 l2]|] eqn:Hr1; [|discriminate].
      injection Hr as <- <-.
      change (frames (Frame h t g :: evs)) with (S (frames evs)).
      rewrite Nat.add_succ_r.
      exact (IH _ _ _ _ Hi1 Hr1).
    + destruct (resize_inv p n s w Hi) as [Hd Hi1]. rewrite Hd in Hr.
      destruct (run evs _) as [[s2 l2]|] eqn:Hr1; [|discriminate].
      injection Hr as <- <-. exact (IH _ _ _ _ Hi1 Hr1).
    + destruct (dispose_inv p n s Hi) as (k & _ & Hd & Hi1 & _).
      rewrite Hd in Hr.
      destruct (run evs _) as [[s2 l2]|] eqn:Hr1; [|discriminate].
      injection Hr as <- <-. exact (IH _ _ _ _ Hi1 Hr1).
Qed.

Lemma reachable_inv p s : reachable p s -> ∃ n, inv p (S n) s.
Proof.
  intros (s0 & l0 & evs & l & Hc & Hr).
  exists (frames evs). apply (run_inv p evs 1 s0 s l); [|exact Hr].
  exact (construct_inv p s0 l0 Hc).
Qed.

Lemma reachable_construct p s l : construct p = Done tt s l -> reachable p s.
Proof. intros H. exists s, l, [], []. split; [exact H|reflexivity]. Qed.

Lemma dispose_log_quiet s : Forall (λ e, loop_effect e = false) (dispose_log s).
Proof.
  unfold dispose_log.
  destruct (bool_decide _); destruct (parentNode _ _); cbn;
    repeat constructor.
Qed.

(** Once nothing is scheduled, no run of the event loop contains a frame. *)
Lemma run_quiet p evs :
  ∀ n s s' l, inv p n s -> pending s = [] -> run evs s = Some (s', l) ->
    frames evs = 0 ∧ pending s' = [] ∧ Forall (λ e, loop_effect e = false) l.
Proof.
  induction evs as [|ev evs IH]; intros n s s' l Hi Hq Hr; cbn [run frames] in *.
  - injection Hr as <- <-. auto.
  - destruct (enabled ev s) eqn:He; [|discriminate].
    destruct ev as [h t g|w|]; cbn [frames is_frame Nat.add].
    + simpl in He. rewrite Hq in He. apply bool_decide_eq_true in He.
      apply elem_of_nil in He. destruct He.
    + destruct (resize_inv p n s w Hi) as [Hd Hi1]. rewrite Hd in Hr.
      destruct (run evs _) as [[s2 l2]|] eqn:Hr1; [|discriminate].
      injection Hr as <- <-.
      apply (IH _ _ _ _ Hi1); [|exact Hr1]. destruct s; exact Hq.
    + destruct (dispose_inv p n s Hi) as (k & _ & Hd & Hi1 & Hq1).
      rewrite Hd in Hr.
      destruct (run evs _) as [[s2 l2]|] eqn:Hr1; [|discriminate].
      injection Hr as <- <-.
      destruct (IH _ _ _ _ Hi1 Hq1 Hr1) as (Hf & Hp & Hl).
      split; [exact Hf|]. split; [exact Hp|].
      apply Forall_app. split; [apply dispose_log_quiet|exact Hl].
Qed.

(** ** The animation step *)

(** C1 (as amended). An animation step, in any state in which it finds its
    cube and its controls, completes, and its effects are, in this order: the
    request of the next animation frame, whose handle it stores; the
    overlay's frame start; the new rotation of the cube about x, then about
    y; the update of the controls; the rendering of the scene as it now is
    through the camera as it now is; the overlay's frame end. *)
Theorem animate_effect_order g s :
  ready s ->
  ∃ s' h c v1 v2,
    animate g s =
      Done tt s'
        [RequestAnimationFrame h; StatsBegin; RotationSet c AxisX v1;
         RotationSet c AxisY v2; ControlsUpdate;
         Render (scene_objects s') (camera s'); StatsEnd] ∧
    animationFrameId s' = h ∧ h ∈ pending s' ∧
    cube s' = Some c ∧
    ∃ m m', heap s !! c = Some (ObjMesh m) ∧ heap s' !! c = Some (ObjMesh m') ∧
            v1 = add (rx (rotation m)) (dec 1 100) ∧
            v2 = add (ry (rotation m)) (dec 1 100) ∧
            rx (rotation m') = v1 ∧ ry (rotation m') = v2.
Proof.
  intros (c & m & k & Hc & Hm & Hk).
  pose proof (animate_spec g s c m k Hc Hm Hk) as H. cbv zeta in H.
  assert (Hlt : c < length (heap s)) by (eapply lookup_lt_Some; eauto).
  eexists _, _, c, _, _. split; [exact H|].
  destruct s; simpl in *; subst. cbn.
  split; [reflexivity|].
  split; [apply elem_of_app; right; apply list_elem_of_singleton; reflexivity|].
  split; [reflexivity|].
  eexists m, _. split; [exact Hm|].
  split; [apply list_lookup_insert_eq; exact Hlt|].
  repeat split; reflexivity.
Qed.

(** Before the first step the cube is not rotated. *)
Lemma rotation_before_first_step p s l :
  setup (new_ThreeJSScene p) = Done tt s l ->
  ∃ c m, cube s = Some c ∧ heap s !! c = Some (ObjMesh m) ∧
         rx (rotation m) = spin 0 (int 0) ∧ ry (rotation m) = spin 0 (int 0).
Proof.
  intros H. destruct (page_has_app (pf_page p)) eqn:Hp.
  - rewrite (setup_spec p Hp) in H. injection H as <- _.
    exists 2, (cube_mesh unrotated). repeat split; reflexivity.
  - rewrite (setup_throws p Hp) in H. discriminate.
Qed.

(** C2 (as amended). After [N] animation steps of a controller, the first of
    them the one its constructor runs, the others run by the browser with
    whatever time stamps, input and resizes in between, the rotation of the
    cube about x and about y is the sum of [N] additions of the double 0.01,
    starting from 0, in binary64 arithmetic; no reduction modulo 2 pi is
    applied. *)
Theorem rotation_after_steps p s0 l0 evs s l :
  construct p = Done tt s0 l0 ->
  run evs s0 = Some (s, l) ->
  let N := S (frames evs) in
  ∃ c m, cube s = Some c ∧ heap s !! c = Some (ObjMesh m) ∧
         rx (rotation m) = spin N (int 0) ∧
         ry (rotation m) = spin N (int 0).
Proof.
  intros Hc Hr N.
  pose proof (run_inv p evs 1 s0 s l (construct_inv p s0 l0 Hc) Hr) as Hi.
  destruct Hi as [Hh _ Hcube _ _ _ _ _ _].
  eexists 2, _. split; [exact Hcube|]. rewrite Hh.
  split; [reflexivity|]. split; reflexivity.
Qed.

(** ** Resizing *)

(** C3. After the resize handler has run on a window of [W] x [H], in any
    state of a constructed controller, the aspect ratio of the camera, and of
    its committed projection, is the quotient [W / H]; the surface has size
    [W] x [H] and its output is that size scaled by the pixel ratio the
    surface holds, which is the device pixel ratio read at construction. *)
Theorem resize_sets_aspect_and_size p s w :
  reachable p s ->
  let W := innerWidth w in
  let H := innerHeight w in
  let r := devicePixelRatio (pf_window p) in
  ∃ s', deliver (Resize w) s = Done tt s' [] ∧
        aspect (camera s') = div W H ∧
        p_aspect (projection (camera s')) = div W H ∧
        r_size (renderer s') = mkVector2 W H ∧
        pixelRatio (renderer s') = r ∧
        outputSize (renderer s') = mkVector2 (mul W r) (mul H r).
Proof.
  intros Hs W H r. destruct (reachable_inv p s Hs) as [n Hi].
  destruct (resize_inv p (S n) s w Hi) as [Hd _].
  eexists. split; [exact Hd|].
  destruct Hi as [_ _ _ _ _ _ _ Hr _].
  destruct s; simpl in *. unfold outputSize; cbn. rewrite Hr.
  repeat split; reflexivity.
Qed.

(** C9. The resize handler never throws and performs no effect; it changes
    the aspect ratio of the camera, the projection committed from it, and
    the size of the surface, and nothing else: not the position of the
    camera or its other parameters, not the scene, its objects or the cube,
    not the controls, not the other settings of the surface, not the page
    or the schedule. *)
Theorem resize_changes_only_aspect_and_size s :
  ∃ s', onWindowResize s = Done tt s' [] ∧
        cam_position (camera s') = cam_position (camera s) ∧
        fov (camera s') = fov (camera s) ∧
        near (camera s') = near (camera s) ∧
        far (camera s') = far (camera s) ∧
        heap s' = heap s ∧ scene s' = scene s ∧ cube s' = cube s ∧
        controls s' = controls s ∧
        pixelRatio (renderer s') = pixelRatio (renderer s) ∧
        antialias (renderer s') = antialias (renderer s) ∧
        shadowMap_enabled (renderer s') = shadowMap_enabled (renderer s) ∧
        shadowMap_type (renderer s') = shadowMap_type (renderer s) ∧
        clearColor (renderer s') = clearColor (renderer s) ∧
        clearAlpha (renderer s') = clearAlpha (renderer s) ∧
        context_released (renderer s') = context_released (renderer s) ∧
        stats s' = stats s ∧ animationFrameId s' = animationFrameId s ∧
        window s' = window s ∧ document s' = document s ∧
        nextHandle s' = nextHandle s ∧ pending s' = pending s ∧
        resizeListeners s' = resizeListeners s.
Proof.
  exists (resized s). split; [apply onWindowResize_spec|].
  destruct s. repeat split; reflexivity.
Qed.

(** ** Construction *)

(** C5. In every state of a constructed controller the scene holds four
    objects, each once: an ambient light, a directional light, the cube
    (the mesh [this.cube] refers to, a unit box) and the ground plane (a
    10 x 10 plane), in this order. *)
Theorem scene_contents p s :
  reachable p s ->
  length (scene s) = 4 ∧ NoDup (scene s) ∧
  ∃ a d c g,
    scene_objects s = [ObjAmbient a; ObjDirectional d; ObjMesh c; ObjMesh g] ∧
    (∃ i, cube s = Some i ∧ scene s !! 2 = Some i ∧ heap s !! i = Some (ObjMesh c)) ∧
    geometry c = BoxGeometry (int 1) (int 1) (int 1) ∧
    geometry g = PlaneGeometry (int 10) (int 10).
Proof.
  intros Hs. destruct (reachable_inv p s Hs) as [n Hi].
  destruct Hi as [Hh Hsc Hc _ _ _ _ _ _].
  unfold scene_objects. rewrite Hsc, Hh, Hc. cbn.
  split; [reflexivity|]. split.
  { apply (bool_decide_unpack _). reflexivity. }
  eexists _, _, _, _. split; [reflexivity|].
  split; [exists 2; repeat split; reflexivity|]. split; reflexivity.
Qed.


(** ** Disposal *)

Lemma filter_idem {A} (P : A -> Prop) `{∀ x, Decision (P x)} (l : list A) :
  filter P (filter P l) = filter P l.
Proof.
  induction l as [|a l IH]; [reflexivity|].
  rewrite filter_cons. destruct (decide (P a)) as [Ha|Ha]; [|exact IH].
  rewrite filter_cons, decide_True by exact Ha. f_equal. exact IH.
Qed.

Lemma disposed_idem k s : disposed (unbind k) (disposed k s) = disposed k s.
Proof.
  destruct s as [? ? ? ? ? ? ? h ? d ? q ?]. unfold disposed; cbn.
  assert (Hd : parentNode StatsDom
            (match parentNode StatsDom d with
             | Some _ => detach StatsDom
             | None => λ d, d
             end d) = None).
  { destruct (parentNode StatsDom d) eqn:Hp; [|exact Hp].
    apply lookup_delete_eq. }
  rewrite Hd. destruct (bool_decide (h ≠ 0%Z)); [rewrite filter_idem|];
    reflexivity.
Qed.

Lemma dispose_log_disposed k s :
  Forall (λ e, is_removal e = false) (dispose_log (disposed k s)).
Proof.
  unfold dispose_log.
  assert (Hd : parentNode StatsDom (document (disposed k s)) = None).
  { destruct s as [? ? ? ? ? ? ? h ? d ? q ?]. cbn.
    destruct (parentNode StatsDom d) eqn:Hp; [|exact Hp].
    apply lookup_delete_eq. }
  rewrite Hd. destruct (bool_decide _); repeat constructor.
Qed.

(** C4. On a constructed controller [dispose] completes, and a second
    [dispose] right after it completes too, leaves the state as the first
    left it and removes nothing from the page. With a zero handle the
    cancellation is skipped and the schedule is left alone; with the
    overlay's element detached the removal is skipped and the page is left
    alone. *)
Theorem dispose_twice s k :
  controls s = Some k ->
  ∃ s1 l1 l2,
    dispose s = Done tt s1 l1 ∧
    dispose s1 = Done tt s1 l2 ∧
    Forall (λ e, is_removal e = false) l2 ∧
    (animationFrameId s = 0%Z ->
       pending s1 = pending s ∧ Forall (λ e, is_cancel e = false) l1) ∧
    (parentNode StatsDom (document s) = None ->
       document s1 = document s ∧ Forall (λ e, is_removal e = false) l1).
Proof.
  intros Hk. exists (disposed k s), (dispose_log s), (dispose_log (disposed k s)).
  split; [apply dispose_spec; exact Hk|].
  split.
  { rewrite (dispose_spec (disposed k s) (unbind k)) by (destruct s; reflexivity).
    rewrite disposed_idem. reflexivity. }
  split; [apply dispose_log_disposed|].
  split.
  - intros Hz. destruct s; simpl in *; subst. unfold dispose_log; cbn.
    split; [reflexivity|]. destruct (parentNode _ _); repeat constructor.
  - intros Hn. destruct s; simpl in *. unfold dispose_log; cbn. rewrite Hn.
    split; [reflexivity|]. destruct (bool_decide _); repeat constructor.
Qed.

(** C7. In every state of a constructed controller at most one animation
    callback is scheduled, and its handle is the one the controller stores.
    [dispose] cancels the stored handle, and nothing is scheduled after it:
    no run of the event loop from there contains a frame or any effect of
    an animation step. *)
Theorem single_scheduled_callback p s :
  reachable p s ->
  (pending s = [] ∨ pending s = [animationFrameId s]) ∧
  ∃ s1 l1,
    dispose s = Done tt s1 l1 ∧
    CancelAnimationFrame (animationFrameId s) ∈ l1 ∧
    pending s1 = [] ∧
    ∀ evs s2 l2, run evs s1 = Some (s2, l2) ->
      frames evs = 0 ∧ pending s2 = [] ∧
      Forall (λ e, loop_effect e = false) l2.
Proof.
  intros Hs. destruct (reachable_inv p s Hs) as [n Hi].
  split; [apply (inv_pending p (S n) s Hi)|].
  destruct (dispose_inv p (S n) s Hi) as (k & Hk & Hd & Hi1 & Hq).
  exists (disposed k s), (dispose_log s). split; [exact Hd|].
  split.
  { unfold dispose_log.
    rewrite bool_decide_true by (apply (inv_handle p (S n) s Hi)).
    apply elem_of_app. left. apply list_elem_of_singleton. reflexivity. }
  split; [exact Hq|].
  intros evs s2 l2 Hr. exact (run_quiet p evs (S n) _ s2 l2 Hi1 Hq Hr).
Qed.

(** C10. [dispose], in any state of a constructed controller, leaves the
    canvas under the [#app] element: the only element it detaches is the
    overlay's, every other element keeps its parent. *)
Theorem dispose_keeps_canvas p s :
  reachable p s ->
  ∃ s1 l1,
    dispose s = Done tt s1 l1 ∧
    parentNode Canvas (document s1) = Some AppDiv ∧
    parentNode StatsDom (document s1) = None ∧
    (∀ n, n ≠ StatsDom ->
       parentNode n (document s1) = parentNode n (document s)) ∧
    (∀ c n, RemoveChild c n ∈ l1 -> n = StatsDom).
Proof.
  intros Hs. destruct (reachable_inv p s Hs) as [n Hi].
  destruct (dispose_inv p (S n) s Hi) as (k & Hk & Hd & Hi1 & Hq).
  exists (disposed k s), (dispose_log s). split; [exact Hd|].
  split; [apply (inv_canvas p (S n) _ Hi1)|].
  split; [|split].
  - destruct s as [? ? ? ? ? ? ? h ? d ? q ?]. cbn.
    destruct (parentNode StatsDom d) eqn:Hp; [|exact Hp].
    apply lookup_delete_eq.
  - intros m Hm. destruct s as [? ? ? ? ? ? ? h ? d ? q ?]. cbn.
    destruct (parentNode StatsDom d); [|reflexivity].
    apply lookup_delete_ne. congruence.
  - intros c m Hin.
    assert (Hr : is_removal (RemoveChild c m) = true) by reflexivity.
    unfold dispose_log in Hin.
    destruct (bool_decide _); destruct (parentNode StatsDom _);
      cbn in Hin;
      repeat match goal with
        | H : _ ∈ _ :: _ |- _ => apply elem_of_cons in H; destruct H as [H|H]
        | H : _ ∈ [] |- _ => apply elem_of_nil in H; destruct H
        | H : RemoveChild _ _ = _ |- _ => inversion H; clear H
        end; subst; reflexivity.
Qed.

(** ** Faults *)

(** X1. The constructor throws a [TypeError] exactly on a page without the
    [#app] element; on a page that has it, it completes. *)
Theorem construct_outcome p :
  match construct p with
  | Done _ _ _ => page_has_app (pf_page p) = true
  | Throw e => e = TypeError ∧ page_has_app (pf_page p) = false
  end.
Proof.
  destruct (page_has_app (pf_page p)) eqn:Hp.
  - rewrite (construct_spec p Hp). reflexivity.
  - rewrite (construct_throws p Hp). split; reflexivity.
Qed.

Lemma animate_cases g s : ready s ∨ animate g s = Throw TypeError.
Proof.
  unfold ready.
  destruct (cube s) as [c|] eqn:Hc.
  2:{ right. destruct s; simpl in *; subst. reflexivity. }
  destruct (heap s !! c) as [[a|d|m]|] eqn:Hm;
    try (right; destruct s; simpl in *; subst;
         unfold animate, requestAnimationFrame;
         repeat first [ progress run_monad | rewrite Hm ];
         reflexivity).
  destruct (controls s) as [k|] eqn:Hk.
  - left. exists c, m, k. auto.
  - right. destruct s; simpl in *; subst.
    assert (Hlt : c < length heap0) by (eapply lookup_lt_Some; eauto).
    unfold animate, controls_update, requestAnimationFrame.
    repeat first
      [ progress run_monad
      | rewrite Hm
      | rewrite list_lookup_insert_eq by (rewrite ?length_insert; exact Hlt) ].
    reflexivity.
Qed.

(** X2. An animation step completes exactly in a state in which [this.cube]
    refers to a mesh and [this.controls] is set; in any other state it
    throws a [TypeError]. *)
Theorem animate_outcome g s :
  match animate g s with
  | Done _ _ _ => ready s
  | Throw e => e = TypeError ∧ ¬ ready s
  end.
Proof.
  destruct (animate_cases g s) as [Hr | Ht].
  - destruct Hr as (c & m & k & Hc & Hm & Hk).
    rewrite (animate_spec g s c m k Hc Hm Hk). exists c, m, k. auto.
  - rewrite Ht. split; [reflexivity|].
    intros (c & m & k & Hc & Hm & Hk).
    rewrite (animate_spec g s c m k Hc Hm Hk) in Ht. discriminate.
Qed.

(** X3. [dispose] completes exactly when [this.controls] is set; otherwise
    it throws a [TypeError]: of its three steps only the release of the
    controls is unguarded. *)
Theorem dispose_outcome s :
  match dispose s with
  | Done _ _ _ => is_Some (controls s)
  | Throw e => e = TypeError ∧ controls s = None
  end.
Proof.
  destruct (controls s) as [k|] eqn:Hk.
  - rewrite (dispose_spec s k Hk). eauto.
  - rewrite (dispose_throws s Hk). split; reflexivity.
Qed.

(** ** What a method leaves alone *)

(** X4. Of the controller's own data an animation step assigns only the
    stored handle and the rotation of the cube about x and y. It leaves
    [this.cube], the children of the scene, every other object, the cube's
    geometry, material, position, shadow flags and rotation about z, the
    window, the parent of every element of the page and the resize
    listeners as they were. (What [update()], [begin()], [end()] and
    [render()] do inside the controls, the overlay and the surface is the
    libraries' and is not stated here.) *)
Theorem animate_changes_only_cube_rotation g s s' l :
  animate g s = Done tt s' l ->
  scene s' = scene s ∧ cube s' = cube s ∧ window s' = window s ∧
  document s' = document s ∧ resizeListeners s' = resizeListeners s ∧
  length (heap s') = length (heap s) ∧
  ∃ c m m',
    cube s = Some c ∧
    heap s !! c = Some (ObjMesh m) ∧ heap s' !! c = Some (ObjMesh m') ∧
    (∀ i, i ≠ c -> heap s' !! i = heap s !! i) ∧
    geometry m' = geometry m ∧ material m' = material m ∧
    position m' = position m ∧ castShadow m' = castShadow m ∧
    receiveShadow m' = receiveShadow m ∧
    rz (rotation m') = rz (rotation m).
Proof.
  intros H. pose proof (animate_outcome g s) as Ho. rewrite H in Ho.
  destruct Ho as (c & m & k & Hc & Hm & Hk).
  rewrite (animate_spec g s c m k Hc Hm Hk) in H. injection H as <- _.
  assert (Hlt : c < length (heap s)) by (eapply lookup_lt_Some; eauto).
  destruct s; simpl in *; subst. cbn.
  do 5 (split; [reflexivity|]). split; [apply length_insert|].
  eexists c, m, _. split; [reflexivity|]. split; [exact Hm|].
  split; [apply list_lookup_insert_eq; exact Hlt|].
  split; [intros i Hi; apply list_lookup_insert_ne; congruence|].
  repeat split; reflexivity.
Qed.

(** X5. [dispose] does not reset the stored handle and does not remove the
    resize listener; it leaves the camera, the scene and its objects,
    [this.cube], the overlay's settings and the window as they were. *)
Theorem dispose_leaves_handle_and_listener s s' l :
  dispose s = Done tt s' l ->
  animationFrameId s' = animationFrameId s ∧
  resizeListeners s' = resizeListeners s ∧
  camera s' = camera s ∧ heap s' = heap s ∧ scene s' = scene s ∧
  cube s' = cube s ∧ stats s' = stats s ∧ window s' = window s.
Proof.
  intros H. pose proof (dispose_outcome s) as Ho. rewrite H in Ho.
  destruct Ho as [k Hk]. rewrite (dispose_spec s k Hk) in H.
  injection H as <- _. destruct s; simpl in *; subst.
  repeat split; reflexivity.
Qed.

(** ** The event loop *)

Lemma deliver_frame h t g s c m k :
  cube s = Some c -> heap s !! c = Some (ObjMesh m) -> controls s = Some k ->
  let s1 := set_scheduler (nextHandle s) (filter (λ j, j ≠ h) (pending s)) s in
  deliver (Frame h t g) s =
    Done tt (animated g k c m s1) (animate_log c m s1 (animated g k c m s1)).
Proof.
  intros Hc Hm Hk s1. unfold deliver.
  rewrite (bind_Done _ _ _ _ _ _ (dequeue_spec h s)).
  fold s1. rewrite (animate_spec g s1 c m k) by (destruct s; assumption).
  reflexivity.
Qed.

Lemma deliver_resize w s :
  deliver (Resize w) s = Done tt (after_resize w s) [].
Proof.
  unfold deliver, after_resize, bind, modify, gets. cbn.
  destruct (resizeListeners s) as [|n] eqn:Hn.
  - destruct s; simpl in *; subst. reflexivity.
  - replace (resizeListeners (set_window w s)) with (S n)
      by (destruct s; simpl in *; congruence).
    rewrite times_onWindowResize. reflexivity.
Qed.

Lemma construct_status p s l : construct p = Done tt s l -> status p false s.
Proof.
  intros H. rewrite (construct_spec p (construct_app p s l H)) in H.
  injection H as <- _. destruct p as [[W H r] pg n]. split; cbn; auto.
  - apply lookup_insert_eq.
  - intros k. rewrite !lookup_insert_ne by discriminate. reflexivity.
Qed.

Lemma deliver_status p n d ev s :
  inv p n s -> status p d s -> enabled ev s = true ->
  ∃ s' l, deliver ev s = Done tt s' l ∧ status p (d || is_dispose ev) s'.
Proof.
  intros Hi [Hr Hk Hst Ho Hq Hf] He.
  destruct ev as [h t g|w|]; cbn [is_dispose].
  - simpl in He. apply bool_decide_eq_true in He.
    destruct d; rewrite Hq in He; [apply elem_of_nil in He; destruct He|].
    apply list_elem_of_singleton in He. subst h.
    rewrite (deliver_frame _ t g s 2 _ _ (inv_cube p n s Hi)
               ltac:(rewrite (inv_heap p n s Hi); reflexivity) Hk).
    eexists _, _. split; [reflexivity|].
    destruct s; simpl in *; subst. split; cbn; auto.
    rewrite decide_False by (intros H; apply H; reflexivity). reflexivity.
  - rewrite deliver_resize. eexists _, _. split; [reflexivity|].
    unfold after_resize. rewrite (inv_listeners p n s Hi).
    rewrite orb_false_r.
    destruct s; simpl in *; subst. split; cbn; auto.
    destruct d; reflexivity.
  - rewrite orb_true_r. cbn [deliver]. rewrite (dispose_spec s _ Hk).
    eexists _, _. split; [reflexivity|].
    pose proof (inv_handle p n s Hi) as Hid.
    destruct s; simpl in *; subst. split; cbn; auto.
    + destruct d; reflexivity.
    + destruct d; reflexivity.
    + unfold parentNode in *. rewrite Ho. destruct d; cbn; [exact Ho|].
      apply lookup_delete_eq.
    + rewrite bool_decide_true by exact Hid.
      destruct d; cbn; [reflexivity|].
      rewrite decide_False by (intros H; apply H; reflexivity). reflexivity.
    + intros k. unfold parentNode in *. rewrite Ho.
      destruct d; cbn; [apply Hf|].
      rewrite lookup_delete_ne by discriminate. apply Hf.
Qed.

Lemma run_status p evs :
  ∀ n d s s' l, inv p n s -> status p d s -> run evs s = Some (s', l) ->
    status p (d || disposed_in evs) s'.
Proof.
  induction evs as [|ev evs IH]; intros n d s s' l Hi Hs Hr.
  - injection Hr as <- <-. cbn. rewrite orb_false_r. exact Hs.
  - cbn [run] in Hr.
    destruct (enabled ev s) eqn:He; [|discriminate].
    destruct (deliver_status p n d ev s Hi Hs He) as (s1 & l1 & Hd & Hs1).
    assert (Hi1 : ∃ n1, inv p n1 s1).
    { pose proof (run_inv p [ev] n s s1 l1 Hi) as Hx. cbn [run] in Hx.
      rewrite He, Hd in Hx. rewrite app_nil_r in Hx. eexists. apply Hx.
      reflexivity. }
    destruct Hi1 as [n1 Hi1].
    rewrite Hd in Hr.
    destruct (run evs s1) as [[s2 l2]|] eqn:Hr1; [|discriminate].
    injection Hr as <- <-.
    change (disposed_in (ev :: evs)) with (is_dispose ev || disposed_in evs).
    rewrite orb_assoc. exact (IH n1 _ s1 s2 l2 Hi1 Hs1 Hr1).
Qed.

Lemma run_snoc evs ev :
  ∀ s0 s s' l l',
    run evs s0 = Some (s, l) -> enabled ev s = true ->
    deliver ev s = Done tt s' l' ->
    run (evs ++ [ev]) s0 = Some (s', l ++ l').
Proof.
  induction evs as [|e evs IH]; intros s0 s s' l l' Hr He Hd; cbn [run app] in *.
  - injection Hr as <- <-. rewrite He, Hd. cbn. rewrite app_nil_r. reflexivity.
  - destruct (enabled e s0); [|discriminate].
    destruct (deliver e s0) as [[] s1 l1|]; [|discriminate].
    destruct (run evs s1) as [[s2 l2]|] eqn:Hr1; [|discriminate].
    injection Hr as <- <-. rewrite (IH s1 s2 s' l2 l' Hr1 He Hd).
    rewrite app_assoc. reflexivity.
Qed.

(** X6. Once the controller is constructed no handler throws: whatever
    event the browser can deliver in a reachable state, its handler
    completes, in a reachable state again. *)
Theorem handlers_complete p s ev :
  reachable p s -> enabled ev s = true ->
  ∃ s' l, deliver ev s = Done tt s' l ∧ reachable p s'.
Proof.
  intros (s0 & l0 & evs & l & Hc & Hr) He.
  pose proof (run_inv p evs 1 s0 s l (construct_inv p s0 l0 Hc) Hr) as Hi.
  pose proof (run_status p evs 1 false s0 s l (construct_inv p s0 l0 Hc)
                (construct_status p s0 l0 Hc) Hr) as Hs.
  destruct (deliver_status p _ _ ev s Hi Hs He) as (s' & l' & Hd & _).
  exists s', l'. split; [exact Hd|].
  exists s0, l0, (evs ++ [ev]), (l ++ l'). split; [exact Hc|].
  exact (run_snoc evs ev s0 s s' l l' Hr He Hd).
Qed.

(** X7. The life cycle of a constructed controller. Until [dispose] is
    called the controls listen, the overlay's element is a child of the
    body and exactly the stored handle is scheduled, so that the loop goes
    on. Once [dispose] was called the controls no longer listen, the
    overlay's element is detached and nothing is scheduled. In either case
    the resize listener is registered, once, and the overlay shows panel 0
    with the class [stats]. *)
Theorem life_cycle p s0 l0 evs s l :
  construct p = Done tt s0 l0 ->
  run evs s0 = Some (s, l) ->
  let d := disposed_in evs in
  (∃ k, controls s = Some k ∧ listening k = negb d) ∧
  parentNode StatsDom (document s) = (if d then None else Some Body) ∧
  pending s = (if d then [] else [animationFrameId s]) ∧
  resizeListeners s = 1 ∧
  stats s = mkStats 0 ["stats"%string].
Proof.
  intros Hc Hr d.
  pose proof (run_inv p evs 1 s0 s l (construct_inv p s0 l0 Hc) Hr) as Hi.
  pose proof (run_status p evs 1 false s0 s l (construct_inv p s0 l0 Hc)
                (construct_status p s0 l0 Hc) Hr) as Hs.
  cbn [orb] in Hs. fold d in Hs.
  destruct Hs as [Hrr Hk Hst Ho Hq Hf].
  split; [eexists; split; [exact Hk|destruct d; reflexivity]|].
  split; [exact Ho|]. split; [exact Hq|].
  split; [exact (inv_listeners p _ s Hi)|exact Hst].
Qed.

Lemma reachable_status p s : reachable p s -> ∃ d, status p d s.
Proof.
  intros (s0 & l0 & evs & l & Hc & Hr). eexists.
  exact (run_status p evs 1 false s0 s l (construct_inv p s0 l0 Hc)
           (construct_status p s0 l0 Hc) Hr).
Qed.

(** X8. The controller never touches an element of the page that is not
    its own: in every reachable state each of them has the parent it had
    when the page was loaded. *)
Theorem page_elements_untouched p s n :
  reachable p s ->
  parentNode (Foreign n) (document s) = parentNode (Foreign n) (load (pf_page p)).
Proof.
  intros Hs. destruct (reachable_status p s Hs) as [d Hst].
  apply (status_foreign p d s Hst).
Qed.

(** X9. In every reachable state the surface is as [init] configured it:
    antialiased, soft shadow maps enabled, clear colour 0x222222 with alpha
    1, the pixel ratio read at construction; and its size is that of the
    window, whatever resizes occurred. *)
Theorem renderer_settings p s :
  reachable p s ->
  antialias (renderer s) = true ∧
  shadowMap_enabled (renderer s) = true ∧
  shadowMap_type (renderer s) = PCFSoftShadowMap ∧
  clearColor (renderer s) = 0x222222%Z ∧
  clearAlpha (renderer s) = int 1 ∧
  pixelRatio (renderer s) = devicePixelRatio (pf_window p) ∧
  r_size (renderer s) = mkVector2 (innerWidth (window s)) (innerHeight (window s)).
Proof.
  intros Hs. destruct (reachable_status p s Hs) as [d Hst].
  rewrite (status_renderer p d s Hst). destruct d; repeat split; reflexivity.
Qed.

(** ** The scene and the controls *)

(** X10. In every reachable state the two lights are as [createLights] made
    them: an ambient light of colour 0x404040 and intensity 0.6, and a white
    directional light of intensity 1 at (10, 10, 5) that casts shadows on a
    2048 x 2048 shadow map. *)
Theorem lights_as_created p s :
  reachable p s ->
  ∃ a d,
    scene_objects s !! 0 = Some (ObjAmbient a) ∧
    scene_objects s !! 1 = Some (ObjDirectional d) ∧
    al_color a = 0x404040%Z ∧ al_intensity a = dec 6 10 ∧
    dl_color d = 0xffffff%Z ∧ dl_intensity d = int 1 ∧
    dl_position d = mkVector3 (int 10) (int 10) (int 5) ∧
    dl_castShadow d = true ∧
    dl_mapSize d = mkVector2 (int 2048) (int 2048).
Proof.
  intros Hs. destruct (reachable_inv p s Hs) as [n Hi].
  destruct Hi as [Hh Hsc _ _ _ _ _ _ _].
  unfold scene_objects. rewrite Hsc, Hh. cbn.
  eexists _, _. repeat split; reflexivity.
Qed.

(** X11. In every reachable state the cube is the green unit box at the
    origin that casts and receives shadows, its rotation about x equals its
    rotation about y and its rotation about z is 0; the ground is the grey
    10 x 10 plane turned by minus pi / 2 about x at height -1 that receives
    shadows and casts none. *)
Theorem meshes_as_created p s :
  reachable p s ->
  ∃ c g,
    scene_objects s !! 2 = Some (ObjMesh c) ∧
    scene_objects s !! 3 = Some (ObjMesh g) ∧
    geometry c = BoxGeometry (int 1) (int 1) (int 1) ∧
    color (material c) = 0x00ff88%Z ∧ position c = origin ∧
    castShadow c = true ∧ receiveShadow c = true ∧
    rx (rotation c) = ry (rotation c) ∧ rz (rotation c) = int 0 ∧
    geometry g = PlaneGeometry (int 10) (int 10) ∧
    color (material g) = 0x666666%Z ∧
    rotation g = mkEuler (div (neg Math_PI) (int 2)) (int 0) (int 0) ∧
    position g = mkVector3 (int 0) (int (-1)) (int 0) ∧
    castShadow g = false ∧ receiveShadow g = true.
Proof.
  intros Hs. destruct (reachable_inv p s Hs) as [n Hi].
  destruct Hi as [Hh Hsc _ _ _ _ _ _ _].
  unfold scene_objects. rewrite Hsc, Hh. cbn.
  eexists _, _. repeat split; reflexivity.
Qed.

(** X12. In every reachable state the controls have damping enabled with
    factor 0.05, as [setupControls] set them. *)
Theorem controls_damped p s :
  reachable p s ->
  ∃ k, controls s = Some k ∧
       enableDamping k = true ∧ dampingFactor k = dec 5 100.
Proof.
  intros Hs. destruct (reachable_inv p s Hs) as [n Hi].
  destruct (inv_controls p (S n) s Hi) as [Hk | Hk];
    eexists; (split; [exact Hk|split; reflexivity]).
Qed.

(** X18. In every reachable state a frame leaves the camera as the update of
    the controls makes it from the camera before the frame, with the input
    of that frame and the settings of [setupControls]: damping enabled with
    factor 0.05 and the zoom range from 2 to 20, listeners bound. *)
Theorem frame_updates_camera p s h t g :
  reachable p s ->
  enabled (Frame h t g) s = true ->
  ∃ s' l,
    deliver (Frame h t g) s = Done tt s' l ∧
    controls s = Some (mkControls true (dec 5 100) (int 2) (int 20) true) ∧
    camera s'
    = orbit_update g (mkControls true (dec 5 100) (int 2) (int 20) true)
        (camera s).
Proof.
  intros Hs He. destruct (reachable_inv p s Hs) as [n Hi].
  destruct (reachable_status p s Hs) as [d Hst].
  assert (Hd : d = false).
  { destruct d; [|reflexivity]. simpl in He.
    rewrite (status_pending p true s Hst) in He.
    apply bool_decide_eq_true in He. apply elem_of_nil in He. destruct He. }
  subst d. pose proof (status_controls p false s Hst) as Hk. cbn in Hk.
  rewrite (deliver_frame h t g s 2 _ _ (inv_cube p _ s Hi)
             ltac:(rewrite (inv_heap p _ s Hi); reflexivity) Hk).
  eexists _, _. split; [reflexivity|]. split; [exact Hk|].
  destruct s; reflexivity.
Qed.

(** ** How the handlers compose *)

Lemma after_resize_twice w1 w2 s :
  after_resize w2 (after_resize w1 s) = after_resize w2 s.
Proof. destruct s as [? ? ? ? ? ? ? ? ? ? ? ? [|n]]; reflexivity. Qed.

(** X13. Of two resizes in a row only the last one counts: the state they
    leave is the state the second one alone leaves. In particular a resize
    delivered twice has the effect of one. *)
Theorem resize_last_wins w1 w2 s :
  ∃ s1 s2,
    deliver (Resize w1) s = Done tt s1 [] ∧
    deliver (Resize w2) s1 = Done tt s2 [] ∧
    deliver (Resize w2) s = Done tt s2 [].
Proof.
  exists (after_resize w1 s), (after_resize w2 s).
  split; [apply deliver_resize|].
  split; [|apply deliver_resize].
  rewrite deliver_resize, after_resize_twice. reflexivity.
Qed.

(** X14. The effects of [dispose] on a constructed controller, in order:
    the cancellation of the stored handle, the release of the controls, the
    release of the surface, and, unless [dispose] was called before, the
    removal of the overlay's element from the body. *)
Theorem dispose_effect_order p s0 l0 evs s l :
  construct p = Done tt s0 l0 ->
  run evs s0 = Some (s, l) ->
  ∃ s',
    dispose s =
      Done tt s'
        ([CancelAnimationFrame (animationFrameId s); ControlsDispose;
          RendererDispose] ++
         (if disposed_in evs then [] else [RemoveChild Body StatsDom])).
Proof.
  intros Hc Hr.
  pose proof (run_inv p evs 1 s0 s l (construct_inv p s0 l0 Hc) Hr) as Hi.
  pose proof (run_status p evs 1 false s0 s l (construct_inv p s0 l0 Hc)
                (construct_status p s0 l0 Hc) Hr) as Hs.
  cbn [orb] in Hs.
  rewrite (dispose_spec s _ (status_controls p _ s Hs)).
  eexists. f_equal. unfold dispose_log.
  rewrite bool_decide_true by exact (inv_handle p _ s Hi).
  rewrite (status_overlay p _ s Hs).
  destruct (disposed_in evs); reflexivity.
Qed.

(** X15. A resize and a call of [dispose] commute: in a reachable state,
    delivered in either order they leave the same state and perform the
    same effects. *)
Theorem resize_dispose_commute p s w :
  reachable p s ->
  ∃ s' l,
    run [Resize w; Dispose] s = Some (s', l) ∧
    run [Dispose; Resize w] s = Some (s', l).
Proof.
  intros Hs. destruct (reachable_inv p s Hs) as [n Hi].
  assert (∃ k, controls s = Some k) as [k Hk]
    by (destruct (inv_controls p (S n) s Hi); eauto).
  assert (Hd : ∀ s1, controls s1 = Some k ->
            deliver Dispose s1 = Done tt (disposed k s1) (dispose_log s1))
    by (intros s1 H1; exact (dispose_spec s1 k H1)).
  exists (disposed k (after_resize w s)), (dispose_log s).
  cbn [run enabled].
  rewrite (Hd s Hk), !deliver_resize.
  rewrite (Hd (after_resize w s))
    by (unfold after_resize; destruct s as [? ? ? ? ? ? ? ? ? ? ? ? [|?]];
        exact Hk).
  rewrite !app_nil_r. cbn [app].
  replace (dispose_log (after_resize w s)) with (dispose_log s)
    by (destruct s as [? ? ? ? ? ? ? ? ? ? ? ? [|?]]; reflexivity).
  replace (after_resize w (disposed k s)) with (disposed k (after_resize w s))
    by (destruct s as [? ? ? ? ? ? ? ? ? ? ? ? [|?]]; reflexivity).
  split; reflexivity.
Qed.

(** X16. The effects of the constructor, in order: the canvas is appended
    to the [#app] element, the overlay's element to the body, the resize
    listener is registered, and then the first animation step runs. When
    the constructor returns exactly one callback is scheduled, under the
    handle the browser gave, which is stored. *)
Theorem construct_effect_order p s l :
  construct p = Done tt s l ->
  ∃ h v objs cam,
    l = [AppendChild AppDiv Canvas; AppendChild Body StatsDom;
         AddEventListener "resize"; RequestAnimationFrame h; StatsBegin;
         RotationSet 2 AxisX v; RotationSet 2 AxisY v; ControlsUpdate;
         Render objs cam; StatsEnd] ∧
    h = Z.pos (pf_nextHandle p) ∧
    animationFrameId s = h ∧ pending s = [h] ∧
    parentNode Canvas (document s) = Some AppDiv ∧
    parentNode StatsDom (document s) = Some Body.
Proof.
  intros H. rewrite (construct_spec p (construct_app p s l H)) in H.
  injection H as <- <-. destruct p as [w pg n]. cbn.
  eexists _, _, _, _. split; [reflexivity|].
  split; [reflexivity|]. split; [reflexivity|]. split; [reflexivity|].
  split; [|apply lookup_insert_eq].
  unfold parentNode; cbn.
  rewrite lookup_insert_ne by discriminate. apply lookup_insert_eq.
Qed.

Lemma frames_cons ev evs :
  frames (ev :: evs) = (if is_frame ev then 1 else 0) + frames evs.
Proof. destruct ev; reflexivity. Qed.

Lemma tally_app f l1 l2 : tally f (l1 ++ l2) = tally f l1 + tally f l2.
Proof. unfold tally. rewrite List.filter_app. apply length_app. Qed.

Lemma tally_dispose_log s :
  tally is_render (dispose_log s) = 0 ∧ tally is_request (dispose_log s) = 0 ∧
  tally is_begin (dispose_log s) = 0 ∧ tally is_end (dispose_log s) = 0.
Proof.
  unfold dispose_log.
  destruct (bool_decide _); destruct (parentNode _ _); repeat split; reflexivity.
Qed.

Lemma run_tally p evs :
  ∀ n d s s' l, inv p n s -> status p d s -> run evs s = Some (s', l) ->
    tally is_render l = frames evs ∧ tally is_request l = frames evs ∧
    tally is_begin l = frames evs ∧ tally is_end l = frames evs.
Proof.
  induction evs as [|ev evs IH]; intros n d s s' l Hi Hs Hr.
  - injection Hr as <- <-. repeat split; reflexivity.
  - cbn [run] in Hr.
    destruct (enabled ev s) eqn:He; [|discriminate].
    destruct (deliver_status p n d ev s Hi Hs He) as (s1 & l1 & Hd & Hs1).
    assert (Hi1 : ∃ n1, inv p n1 s1).
    { pose proof (run_inv p [ev] n s s1 l1 Hi) as Hx. cbn [run] in Hx.
      rewrite He, Hd in Hx. rewrite app_nil_r in Hx. eexists. apply Hx.
      reflexivity. }
    destruct Hi1 as [n1 Hi1].
    rewrite Hd in Hr.
    destruct (run evs s1) as [[s2 l2]|] eqn:Hr1; [|discriminate].
    injection Hr as <- <-.
    destruct (IH n1 _ s1 s2 l2 Hi1 Hs1 Hr1) as (H1 & H2 & H3 & H4).
    rewrite !tally_app, H1, H2, H3, H4.
    assert (Hl : tally is_render l1 = (if is_frame ev then 1 else 0) ∧
                 tally is_request l1 = (if is_frame ev then 1 else 0) ∧
                 tally is_begin l1 = (if is_frame ev then 1 else 0) ∧
                 tally is_end l1 = (if is_frame ev then 1 else 0)).
    { destruct ev as [h t g|w|]; cbn [is_frame].
      - rewrite (deliver_frame h t g s 2 _ _ (inv_cube p n s Hi)
                   ltac:(rewrite (inv_heap p n s Hi); reflexivity)
                   (status_controls p d s Hs)) in Hd.
        injection Hd as _ <-. repeat split; reflexivity.
      - rewrite deliver_resize in Hd. injection Hd as _ <-.
        repeat split; reflexivity.
      - cbn [deliver] in Hd.
        rewrite (dispose_spec s _ (status_controls p d s Hs)) in Hd.
        injection Hd as _ <-. apply tally_dispose_log. }
    destruct Hl as (-> & -> & -> & ->).
    rewrite frames_cons. repeat split; reflexivity.
Qed.

(** X17. The controller renders once per frame and at no other time: the
    effects of a run of [N] frames, with whatever resizes and calls of
    [dispose], contain exactly [N] renderings, [N] requests of a next frame
    and [N] frame starts and [N] frame ends of the overlay. *)
Theorem one_render_per_frame p s0 l0 evs s l :
  construct p = Done tt s0 l0 ->
  run evs s0 = Some (s, l) ->
  tally is_render l = frames evs ∧ tally is_request l = frames evs ∧
  tally is_begin l = frames evs ∧ tally is_end l = frames evs.
Proof.
  intros Hc Hr.
  exact (run_tally p evs 1 false s0 s l (construct_inv p s0 l0 Hc)
           (construct_status p s0 l0 Hc) Hr).
Qed.

End Properties.

(** * The controller at work

    The theorems above, at the controller constructed on [demo] with controls
    that stay where they are. *)

(** On a page without the [#app] element the constructor throws. *)
Lemma construct_bare : construct (lib := still) bare = Throw TypeError.
Proof. reflexivity. Qed.

Lemma demo_constructed :
  ∃ l, construct (lib := still) demo = Done tt demo_state l.
Proof. eexists. vm_compute. reflexivity. Defined.

Lemma demo_ran :
  ∃ l, run demo_events demo_state = Some (demo_later, l).
Proof. eexists. vm_compute. reflexivity. Defined.

Lemma demo_reachable : reachable (lib := still) demo demo_later.
Proof.
  destruct demo_constructed as [l0 H0]. destruct demo_ran as [l H].
  exists demo_state, l0, demo_events, l. split; [exact H0|exact H].
Defined.

Lemma animate_effect_order_witness :
  ready (setup_state (lib := still) demo) ∧
  ∃ s' h c v1 v2,
    animate (lib := still) tt (setup_state (lib := still) demo) =
      Done tt s'
        [RequestAnimationFrame h; StatsBegin; RotationSet c AxisX v1;
         RotationSet c AxisY v2; ControlsUpdate;
         Render (scene_objects s') (camera s'); StatsEnd].
Proof.
  assert (Hr : ready (setup_state (lib := still) demo)).
  { exists 2, (cube_mesh unrotated), controls0. repeat split; reflexivity. }
  split; [exact Hr|].
  destruct (animate_effect_order (lib := still) tt (setup_state (lib := still) demo) Hr)
    as (s' & h & c & v1 & v2 & H & _).
  exists s', h, c, v1, v2. exact H.
Defined.

(** C1, as the specification words it, fails: the first effect of an
    animation step is the request of the next frame, which the
    specification lists last. *)
Lemma animate_reschedules_first :
  ∃ s' l, animate (lib := still) tt (setup_state (lib := still) demo) = Done tt s' l ∧
          head l = Some (RequestAnimationFrame 1) ∧
          last l = Some StatsEnd ∧
          ¬ listed_order l.
Proof.
  eexists _, _. split; [vm_compute; reflexivity|].
  split; [reflexivity|]. split; [reflexivity|].
  intros (h & c & v1 & v2 & objs & cam & H). discriminate H.
Qed.

Lemma rotation_after_steps_witness :
  ∃ l0 l,
    construct (lib := still) demo = Done tt demo_state l0 ∧
    run demo_events demo_state = Some (demo_later, l) ∧
    ∃ c m, cube demo_later = Some c ∧ heap demo_later !! c = Some (ObjMesh m) ∧
           rx (rotation m) = spin 6 (int 0) ∧ ry (rotation m) = spin 6 (int 0).
Proof.
  destruct demo_constructed as [l0 H0]. destruct demo_ran as [l H].
  exists l0, l. split; [exact H0|]. split; [exact H|].
  exact (rotation_after_steps (lib := still) demo demo_state l0 demo_events
           demo_later l H0 H).
Defined.

Lemma PI_gt_3 : (3 < PI)%R.
Proof. pose proof PI2_3_2. lra. Qed.

(** A number strictly between 0 and 1 is no multiple of 2 pi. *)
Lemma small_not_multiple (d : R) (k : Z) :
  (0 < d < 1)%R -> (d = 2 * PI * IZR k)%R -> False.
Proof.
  intros [H0 H1] H. pose proof PI_gt_3 as Hpi.
  destruct (Z_lt_le_dec k 1) as [Hk|Hk].
  - assert (IZR k <= 0)%R by (apply IZR_le; lia).
    assert (2 * PI * IZR k <= 0)%R by nra. lra.
  - assert (1 <= IZR k)%R by (apply IZR_le; lia).
    assert (6 <= 2 * PI * IZR k)%R by nra. lra.
Qed.

(** The additions agree with the product up to five steps. *)
Lemma spin_exact_up_to_5 (n : nat) :
  n <= 5 -> spin n (int 0) = mul (int (Z.of_nat n)) (dec 1 100).
Proof.
  intros Hn.
  do 6 (destruct n as [|n]; [vm_compute; reflexivity|]). lia.
Qed.

(** C2, as the specification words it, fails. The constructor and five
    frames make six animation steps; the rotation of the cube is then
    0.060000000000000005, which is neither the double 6 x 0.01 nor, as a
    real number, 6 x 0.01 modulo 2 pi; counting the five frames alone, it is
    not 5 x 0.01 modulo 2 pi either. *)
Lemma rotation_six_steps_inexact :
  ∃ l0 l m,
    construct (lib := still) demo = Done tt demo_state l0 ∧
    run demo_events demo_state = Some (demo_later, l) ∧
    frames demo_events = 5 ∧
    cube demo_later = Some 2 ∧ heap demo_later !! 2 = Some (ObjMesh m) ∧
    rx (rotation m) = S754_finite false 8646911284551353 (-57) ∧
    mul (int 6) (dec 1 100) = S754_finite false 8646911284551352 (-57) ∧
    rx (rotation m) ≠ mul (int 6) (dec 1 100) ∧
    ¬ congruent_2pi (rx (rotation m)) 6 ∧
    ¬ congruent_2pi (rx (rotation m)) 5.
Proof.
  destruct demo_constructed as [l0 H0]. destruct demo_ran as [l H].
  exists l0, l. eexists. split; [exact H0|]. split; [exact H|].
  split; [reflexivity|]. split; [vm_compute; reflexivity|].
  split; [vm_compute; reflexivity|].
  split; [vm_compute; reflexivity|]. split; [vm_compute; reflexivity|].
  split; [vm_compute; discriminate|].
  split.
  - intros (k & num & den & He & Hr).
    vm_compute in He. injection He as <- <-.
    apply (small_not_multiple
             (8646911284551353 / 144115188075855872 - INR 6 * / 100) k).
    + simpl INR. split; lra.
    + lra.
  - intros (k & num & den & He & Hr).
    vm_compute in He. injection He as <- <-.
    apply (small_not_multiple
             (8646911284551353 / 144115188075855872 - INR 5 * / 100) k).
    + simpl INR. split; lra.
    + lra.
Qed.

Lemma resize_sets_aspect_and_size_witness :
  reachable (lib := still) demo demo_later ∧
  ∃ s', deliver (lib := still) (Resize demo_resized) demo_later = Done tt s' [] ∧
        aspect (camera s') = div (int 1024) (int 768) ∧
        r_size (renderer s') = mkVector2 (int 1024) (int 768) ∧
        outputSize (renderer s') =
          mkVector2 (mul (int 1024) (int 2)) (mul (int 768) (int 2)).
Proof.
  split; [exact demo_reachable|].
  destruct (resize_sets_aspect_and_size (lib := still) demo demo_later
              demo_resized demo_reachable)
    as (s' & Hd & Ha & _ & Hs & _ & Ho).
  exists s'. split; [exact Hd|]. split; [exact Ha|]. split; [exact Hs|exact Ho].
Defined.

Lemma dispose_twice_witness :
  controls (setup_state (lib := still) demo) = Some controls0 ∧
  animationFrameId (setup_state (lib := still) demo) = 0%Z ∧
  ∃ s1 l1 l2,
    dispose (setup_state (lib := still) demo) = Done tt s1 l1 ∧
    dispose s1 = Done tt s1 l2 ∧
    pending s1 = pending (setup_state (lib := still) demo) ∧
    Forall (λ e, is_cancel e = false) l1.
Proof.
  split; [reflexivity|]. split; [reflexivity|].
  destruct (dispose_twice (setup_state (lib := still) demo) controls0 eq_refl)
    as (s1 & l1 & l2 & H1 & H2 & _ & Hz & _).
  exists s1, l1, l2. split; [exact H1|]. split; [exact H2|].
  exact (Hz eq_refl).
Defined.

Lemma scene_contents_witness :
  reachable (lib := still) demo demo_later ∧
  length (scene demo_later) = 4 ∧ NoDup (scene demo_later) ∧
  ∃ a d c g,
    scene_objects demo_later =
      [ObjAmbient a; ObjDirectional d; ObjMesh c; ObjMesh g].
Proof.
  split; [exact demo_reachable|].
  destruct (scene_contents (lib := still) demo demo_later demo_reachable)
    as (Hl & Hn & a & d & c & g & Ho & _).
  split; [exact Hl|]. split; [exact Hn|]. exists a, d, c, g. exact Ho.
Defined.



Lemma single_scheduled_callback_witness :
  reachable (lib := still) demo demo_later ∧
  pending demo_later = [animationFrameId demo_later] ∧
  ∃ s1 l1,
    dispose demo_later = Done tt s1 l1 ∧
    CancelAnimationFrame (animationFrameId demo_later) ∈ l1 ∧
    pending s1 = [].
Proof.
  split; [exact demo_reachable|]. split; [vm_compute; reflexivity|].
  destruct (single_scheduled_callback (lib := still) demo demo_later
              demo_reachable)
    as (_ & s1 & l1 & Hd & Hc & Hq & _).
  exists s1, l1. split; [exact Hd|]. split; [exact Hc|exact Hq].
Defined.

Lemma dispose_keeps_canvas_witness :
  reachable (lib := still) demo demo_later ∧
  ∃ s1 l1,
    dispose demo_later = Done tt s1 l1 ∧
    parentNode Canvas (document s1) = Some AppDiv ∧
    parentNode StatsDom (document s1) = None.
Proof.
  split; [exact demo_reachable|].
  destruct (dispose_keeps_canvas (lib := still) demo demo_later demo_reachable)
    as (s1 & l1 & Hd & Hc & Hs & _).
  exists s1, l1. split; [exact Hd|]. split; [exact Hc|exact Hs].
Defined.

(** ** Further properties at work *)

Lemma demo_closing_ran :
  ∃ l, run demo_closing demo_state = Some (demo_closed, l).
Proof. eexists. vm_compute. reflexivity. Defined.

Lemma animate_changes_only_cube_rotation_witness :
  ∃ s' l,
    animate (lib := still) tt (setup_state (lib := still) demo) = Done tt s' l ∧
    scene s' = scene (setup_state (lib := still) demo) ∧
    cube s' = cube (setup_state (lib := still) demo) ∧
    document s' = document (setup_state (lib := still) demo) ∧
    length (heap s') = length (heap (setup_state (lib := still) demo)).
Proof.
  pose proof (animate_spec (lib := still) tt (setup_state (lib := still) demo) 2
                (cube_mesh unrotated) controls0 eq_refl eq_refl eq_refl) as H.
  eexists _, _. split; [exact H|].
  destruct (animate_changes_only_cube_rotation (lib := still) tt _ _ _ H)
    as (H1 & H2 & _ & H4 & _ & H6 & _).
  split; [exact H1|]. split; [exact H2|]. split; [exact H4|exact H6].
Defined.

Lemma dispose_leaves_handle_and_listener_witness :
  ∃ s' l,
    dispose demo_later = Done tt s' l ∧
    animationFrameId s' = animationFrameId demo_later ∧
    resizeListeners s' = resizeListeners demo_later ∧
    camera s' = camera demo_later.
Proof.
  assert (H : ∃ s' l, dispose demo_later = Done tt s' l)
    by (eexists _, _; vm_compute; reflexivity).
  destruct H as (s' & l & H). exists s', l. split; [exact H|].
  destruct (dispose_leaves_handle_and_listener _ _ _ H) as (H1 & H2 & H3 & _).
  split; [exact H1|]. split; [exact H2|exact H3].
Defined.

Lemma handlers_complete_witness :
  reachable (lib := still) demo demo_later ∧
  enabled (@Frame still 6 (int 1000) tt) demo_later = true ∧
  ∃ s' l, deliver (@Frame still 6 (int 1000) tt) demo_later = Done tt s' l ∧
          reachable (lib := still) demo s'.
Proof.
  assert (He : enabled (@Frame still 6 (int 1000) tt) demo_later = true)
    by (vm_compute; reflexivity).
  split; [exact demo_reachable|]. split; [exact He|].
  exact (handlers_complete (lib := still) demo demo_later _ demo_reachable He).
Defined.

Lemma life_cycle_witness :
  ∃ l0 l,
    construct (lib := still) demo = Done tt demo_state l0 ∧
    run demo_closing demo_state = Some (demo_closed, l) ∧
    (∃ k, controls demo_closed = Some k ∧ listening k = false) ∧
    parentNode StatsDom (document demo_closed) = None ∧
    pending demo_closed = [] ∧
    resizeListeners demo_closed = 1.
Proof.
  destruct demo_constructed as [l0 H0]. destruct demo_closing_ran as [l H].
  exists l0, l. split; [exact H0|]. split; [exact H|].
  destruct (life_cycle (lib := still) demo demo_state l0 demo_closing
              demo_closed l H0 H)
    as (H2 & H3 & H4 & H5 & _).
  split; [exact H2|]. split; [exact H3|].
  split; [exact H4|exact H5].
Defined.

Lemma page_elements_untouched_witness :
  reachable (lib := still) demo demo_later ∧
  parentNode (Foreign 0) (document demo_later) = Some Body ∧
  parentNode (Foreign 1) (document demo_later) = Some AppDiv.
Proof.
  split; [exact demo_reachable|].
  rewrite (page_elements_untouched (lib := still) demo demo_later 0
             demo_reachable).
  rewrite (page_elements_untouched (lib := still) demo demo_later 1
             demo_reachable).
  split; vm_compute; reflexivity.
Defined.

Lemma renderer_settings_witness :
  reachable (lib := still) demo demo_later ∧
  shadowMap_type (renderer demo_later) = PCFSoftShadowMap ∧
  pixelRatio (renderer demo_later) = int 2 ∧
  r_size (renderer demo_later) =
    mkVector2 (innerWidth (window demo_later)) (innerHeight (window demo_later)).
Proof.
  split; [exact demo_reachable|].
  destruct (renderer_settings (lib := still) demo demo_later demo_reachable)
    as (_ & _ & H3 & _ & _ & H6 & H7).
  split; [exact H3|]. split; [exact H6|exact H7].
Defined.

Lemma lights_as_created_witness :
  reachable (lib := still) demo demo_later ∧
  ∃ a d,
    scene_objects demo_later !! 0 = Some (ObjAmbient a) ∧
    scene_objects demo_later !! 1 = Some (ObjDirectional d) ∧
    dl_castShadow d = true.
Proof.
  split; [exact demo_reachable|].
  destruct (lights_as_created (lib := still) demo demo_later demo_reachable)
    as (a & d & H1 & H2 & _ & _ & _ & _ & _ & H8 & _).
  exists a, d. split; [exact H1|]. split; [exact H2|exact H8].
Defined.

Lemma meshes_as_created_witness :
  reachable (lib := still) demo demo_later ∧
  ∃ c g,
    scene_objects demo_later !! 2 = Some (ObjMesh c) ∧
    scene_objects demo_later !! 3 = Some (ObjMesh g) ∧
    rx (rotation c) = ry (rotation c) ∧ rz (rotation c) = int 0.
Proof.
  split; [exact demo_reachable|].
  destruct (meshes_as_created (lib := still) demo demo_later demo_reachable)
    as (c & g & H1 & H2 & _ & _ & _ & _ & _ & H8 & H9 & _).
  exists c, g. split; [exact H1|]. split; [exact H2|]. split; [exact H8|exact H9].
Defined.

Lemma controls_damped_witness :
  reachable (lib := still) demo demo_later ∧
  ∃ k, controls demo_later = Some k ∧
       enableDamping k = true ∧ dampingFactor k = dec 5 100.
Proof.
  split; [exact demo_reachable|].
  exact (controls_damped (lib := still) demo demo_later demo_reachable).
Defined.

Lemma dispose_effect_order_witness :
  ∃ l0 l s',
    construct (lib := still) demo = Done tt demo_state l0 ∧
    run demo_events demo_state = Some (demo_later, l) ∧
    dispose demo_later =
      Done tt s'
        [CancelAnimationFrame (animationFrameId demo_later); ControlsDispose;
         RendererDispose; RemoveChild Body StatsDom].
Proof.
  destruct demo_constructed as [l0 H0]. destruct demo_ran as [l H].
  destruct (dispose_effect_order (lib := still) demo demo_state l0 demo_events
              demo_later l H0 H) as [s' Hd].
  exists l0, l, s'. split; [exact H0|]. split; [exact H|exact Hd].
Defined.

Lemma resize_dispose_commute_witness :
  reachable (lib := still) demo demo_later ∧
  ∃ s' l,
    run [@Resize still demo_resized; Dispose] demo_later = Some (s', l) ∧
    run [Dispose; @Resize still demo_resized] demo_later = Some (s', l).
Proof.
  split; [exact demo_reachable|].
  exact (resize_dispose_commute (lib := still) demo demo_later demo_resized
           demo_reachable).
Defined.

Lemma construct_effect_order_witness :
  ∃ l h v objs cam,
    construct (lib := still) demo = Done tt demo_state l ∧
    l = [AppendChild AppDiv Canvas; AppendChild Body StatsDom;
         AddEventListener "resize"; RequestAnimationFrame h; StatsBegin;
         RotationSet 2 AxisX v; RotationSet 2 AxisY v; ControlsUpdate;
         Render objs cam; StatsEnd] ∧
    h = 1%Z ∧ pending demo_state = [h].
Proof.
  destruct demo_constructed as [l H].
  destruct (construct_effect_order (lib := still) demo demo_state l H)
    as (h & v & objs & cam & Hl & Hh & _ & Hq & _).
  exists l, h, v, objs, cam. split; [exact H|]. split; [exact Hl|].
  split; [exact Hh|exact Hq].
Defined.

Lemma one_render_per_frame_witness :
  ∃ l0 l,
    construct (lib := still) demo = Done tt demo_state l0 ∧
    run demo_events demo_state = Some (demo_later, l) ∧
    tally is_render l = 5 ∧ tally is_request l = 5.
Proof.
  destruct demo_constructed as [l0 H0]. destruct demo_ran as [l H].
  exists l0, l. split; [exact H0|]. split; [exact H|].
  destruct (one_render_per_frame (lib := still) demo demo_state l0 demo_events
              demo_later l H0 H) as (H1 & H2 & _).
  split; [exact H1|exact H2].
Defined.

Lemma frame_updates_camera_witness :
  reachable (lib := still) demo demo_later ∧
  enabled (@Frame still 6 (int 1000) tt) demo_later = true ∧
  ∃ s' l,
    deliver (@Frame still 6 (int 1000) tt) demo_later = Done tt s' l ∧
    controls demo_later
    = Some (mkControls true (dec 5 100) (int 2) (int 20) true).
Proof.
  assert (He : enabled (@Frame still 6 (int 1000) tt) demo_later = true)
    by (vm_compute; reflexivity).
  split; [exact demo_reachable|]. split; [exact He|].
  destruct (frame_updates_camera (lib := still) demo demo_later 6 (int 1000) tt
              demo_reachable He) as (s' & l & Hd & Hk & _).
  exists s', l. split; [exact Hd|exact Hk].
Defined.
